(** * Telink SWire protocol decoder (pd.py): model and verified properties

    The decoder of [pd.py] is embedded as a state-and-output monad over
    the record of the decoder's fields.  Sample numbers and byte values
    are Python integers ([Z]).  The unit time and its multiples are
    Python floats in the source; here they are exact rationals ([Q]),
    which is what the float computations yield whenever the unit and the
    thresholds are representable (for instance a 48 MHz capture of a
    960 kbit/s bus has unit 10.0). *)

From Stdlib Require Import ZArith QArith Qround List String Ascii Bool Lia Lqa.
Import ListNotations.

Open Scope string_scope.
Open Scope list_scope.
Open Scope Z_scope.

(** ** Python string formatting used by the annotations *)

Module Fmt.

Definition digit_char (n : Z) : ascii :=
  match n with
  | 0 => "0" | 1 => "1" | 2 => "2" | 3 => "3" | 4 => "4" | 5 => "5"
  | 6 => "6" | 7 => "7" | 8 => "8" | 9 => "9" | 10 => "A" | 11 => "B"
  | 12 => "C" | 13 => "D" | 14 => "E" | _ => "F"
  end%char.

(** Digits of a non-negative integer, most significant first. *)
Fixpoint digits_loop (fuel : nat) (base n : Z) (acc : string) : string :=
  match fuel with
  | O => acc
  | S fuel' =>
      let acc' := String (digit_char (n mod base)) acc in
      if n / base =? 0 then acc' else digits_loop fuel' base (n / base) acc'
  end.

Definition digits (base n : Z) : string :=
  digits_loop (S (Z.to_nat (Z.log2 n))) base n EmptyString.

Fixpoint repeat_char (c : ascii) (k : nat) : string :=
  match k with
  | O => EmptyString
  | S k' => String c (repeat_char c k')
  end.

Definition zero_pad (width : nat) (s : string) : string :=
  (repeat_char "0"%char (width - String.length s) ++ s)%string.

(** ['%0<width>X' % n]: upper-case hexadecimal, zero-padded to [width]
    characters, the sign counted in the width. *)
Definition fmt_0X (width : nat) (n : Z) : string :=
  if n <? 0
  then String "-"%char (zero_pad (width - 1) (digits 16 (- n)))
  else zero_pad width (digits 16 n).

(** ['%d' % n], which is also [str(n)]. *)
Definition fmt_d (n : Z) : string :=
  if n <? 0 then String "-"%char (digits 10 (- n)) else digits 10 n.

(** [('%0' + str(w) + 'X') % n]: for a negative [w] the format string
    reads ['%0-<|w|>X'], whose [-] flag left-justifies with spaces. *)
Definition fmt_0wX (w : Z) (n : Z) : string :=
  if w <? 0
  then
    let s := (if n <? 0 then String "-"%char (digits 16 (- n))
              else digits 16 n) in
    (s ++ repeat_char " "%char (Z.to_nat (- w) - String.length s))%string
  else fmt_0X (Z.to_nat w) n.

End Fmt.

(** ** Data model *)

(** Annotation indices. *)
Inductive AnnIdx : Set :=
| ANN_BIT | ANN_CMD_BIT | ANN_BYTE | ANN_START | ANN_ADDR | ANN_RW
| ANN_DATA_M | ANN_DATA_S | ANN_END | ANN_TRIG | ANN_ERROR.

Definition ann_index (i : AnnIdx) : Z :=
  match i with
  | ANN_BIT => 0 | ANN_CMD_BIT => 1 | ANN_BYTE => 2 | ANN_START => 3
  | ANN_ADDR => 4 | ANN_RW => 5 | ANN_DATA_M => 6 | ANN_DATA_S => 7
  | ANN_END => 8 | ANN_TRIG => 9 | ANN_ERROR => 10
  end.

(** States. *)
Inductive State : Set :=
| ST_IDLE               (* Waiting for START *)
| ST_ADDR_0             (* First address byte *)
| ST_ADDR_N             (* Remaining address bytes *)
| ST_RW_ID              (* Read/Write + slave ID byte *)
| ST_DATA               (* Master write data *)
| ST_READ_TRIG          (* Waiting for master trigger pulse *)
| ST_READ_DATA          (* Accumulating slave data bits *)
| ST_SLAVE_END          (* Slave end unit *)
| ST_READ_TRIG_OR_END.  (* Next: trigger or END byte? *)

Definition state_index (s : State) : Z :=
  match s with
  | ST_IDLE => 0 | ST_ADDR_0 => 1 | ST_ADDR_N => 2 | ST_RW_ID => 3
  | ST_DATA => 4 | ST_READ_TRIG => 5 | ST_READ_DATA => 6
  | ST_SLAVE_END => 7 | ST_READ_TRIG_OR_END => 8
  end.

Definition State_eqb (a b : State) : bool := state_index a =? state_index b.

(** One call of [self.put(ss, es, self.out_ann, [idx, data])]. *)
Record Ann : Type := mkAnn {
  ann_ss : Z;
  ann_es : Z;
  ann_idx : AnnIdx;
  ann_data : list string
}.

(** A buffered bit: the tuple [(bit_value, ss, es)]. *)
Definition Bit : Type := (Z * Z * Z)%type.

Definition bit_value (b : Bit) : Z := fst (fst b).
Definition bit_ss (b : Bit) : Z := snd (fst b).
Definition bit_es (b : Bit) : Z := snd b.

(** The decoder options, fixed for a run. *)
Record Options : Type := mkOptions {
  bitrate : Z;
  addr_bytes : Z
}.

Definition default_options : Options := mkOptions 960000 3.

(** The fields assigned by [Decoder.reset]. *)
Record Decoder : Type := mkDecoder {
  samplerate : option Z;
  bits : list Bit;
  state : State;
  addr : Z;
  addr_start : Z;
  addr_bytes_remaining : Z;
  is_read : bool;
  errors : Z
}.

Definition set_samplerate (v : option Z) (d : Decoder) : Decoder :=
  mkDecoder v (bits d) (state d) (addr d) (addr_start d)
            (addr_bytes_remaining d) (is_read d) (errors d).
Definition set_bits (v : list Bit) (d : Decoder) : Decoder :=
  mkDecoder (samplerate d) v (state d) (addr d) (addr_start d)
            (addr_bytes_remaining d) (is_read d) (errors d).
Definition set_state (v : State) (d : Decoder) : Decoder :=
  mkDecoder (samplerate d) (bits d) v (addr d) (addr_start d)
            (addr_bytes_remaining d) (is_read d) (errors d).
Definition set_addr (v : Z) (d : Decoder) : Decoder :=
  mkDecoder (samplerate d) (bits d) (state d) v (addr_start d)
            (addr_bytes_remaining d) (is_read d) (errors d).
Definition set_addr_start (v : Z) (d : Decoder) : Decoder :=
  mkDecoder (samplerate d) (bits d) (state d) (addr d) v
            (addr_bytes_remaining d) (is_read d) (errors d).
Definition set_addr_bytes_remaining (v : Z) (d : Decoder) : Decoder :=
  mkDecoder (samplerate d) (bits d) (state d) (addr d) (addr_start d)
            v (is_read d) (errors d).
Definition set_is_read (v : bool) (d : Decoder) : Decoder :=
  mkDecoder (samplerate d) (bits d) (state d) (addr d) (addr_start d)
            (addr_bytes_remaining d) v (errors d).
Definition set_errors (v : Z) (d : Decoder) : Decoder :=
  mkDecoder (samplerate d) (bits d) (state d) (addr d) (addr_start d)
            (addr_bytes_remaining d) (is_read d) v.

(** ** The monad of decoder methods: the fields of [self] are threaded
    through and the annotations put so far are collected in order. *)

Definition M (A : Type) : Type := Decoder -> A * Decoder * list Ann.

Definition ret {A : Type} (a : A) : M A := fun d => (a, d, []).

Definition bind {A B : Type} (m : M A) (k : A -> M B) : M B :=
  fun d =>
    let '(a, d1, o1) := m d in
    let '(b, d2, o2) := k a d1 in
    (b, d2, o1 ++ o2).

(** Methods without a return value return [None]. *)
Definition NoneType : Type := Datatypes.unit.

Definition gets {A : Type} (f : Decoder -> A) : M A := fun d => (f d, d, []).
Definition modify (f : Decoder -> Decoder) : M NoneType := fun d => (tt, f d, []).

Declare Scope swire_scope.
Delimit Scope swire_scope with swire.
Notation "x <- m ;; k" := (bind m (fun x => k))
  (at level 61, m at next level, right associativity) : swire_scope.
Notation "m ;; k" := (bind m (fun _ => k))
  (at level 61, right associativity) : swire_scope.
Open Scope swire_scope.

Definition result {A : Type} (r : A * Decoder * list Ann) : A := fst (fst r).
Definition final {A : Type} (r : A * Decoder * list Ann) : Decoder := snd (fst r).
Definition output {A : Type} (r : A * Decoder * list Ann) : list Ann := snd r.

(** ** The decoder *)

(** [Decoder.reset]: every field is assigned. *)
Definition reset (d : Decoder) : Decoder :=
  mkDecoder None [] ST_IDLE 0 0 0 false 0.

(** [Decoder.__init__] only calls [reset]. *)
Definition init (d : Decoder) : Decoder := reset d.

(** [Decoder.metadata] with key [SRD_CONF_SAMPLERATE]. *)
Definition metadata (value : Z) (d : Decoder) : Decoder :=
  set_samplerate (Some value) d.

Definition _resync : M NoneType :=
  modify (set_bits []) ;;
  modify (set_errors 0) ;;
  modify (set_state ST_IDLE) ;;
  modify (set_is_read false).

Definition _put_ann (ss es : Z) (idx : AnnIdx) (data : list string) : M NoneType :=
  fun d => (tt, d, [mkAnn ss es idx data]).

Definition default_bit : Bit := (0, 0, 0).

(** [self.bits[i]] for an index the guards have put in range. *)
Definition bit_at (d : Decoder) (i : nat) : Bit := nth i (bits d) default_bit.

(** [for i in range(8): byte_val = (byte_val << 1) | self.bits[i + off][0]] *)
Definition fold_byte (d : Decoder) (off : nat) : Z :=
  fold_left
    (fun byte_val i => Z.lor (Z.shiftl byte_val 1) (bit_value (bit_at d (i + off))))
    (seq 0 8) 0.

Definition hex_byte (v : Z) : string := ("0x" ++ Fmt.fmt_0X 2 v)%string.

Definition _decode_slave_byte : M bool :=
  d <- gets id ;;
  if (List.length (bits d) <? 8)%nat then ret false
  else
    let byte_val := fold_byte d 0 in
    let ss := bit_ss (bit_at d 0) in
    let es := bit_es (bit_at d 7) in
    _put_ann ss es ANN_BYTE [hex_byte byte_val] ;;
    _put_ann ss es ANN_DATA_S [hex_byte byte_val] ;;
    modify (set_bits []) ;;
    ret true.

Section WithOptions.

Variable options : Options.

Definition _decode_byte : M bool :=
  d <- gets id ;;
  if (List.length (bits d) <? 9)%nat then ret false
  else
    let cmd := bit_value (bit_at d 0) in
    let byte_val := fold_byte d 1 in
    let ss := bit_ss (bit_at d 0) in
    let es := bit_es (bit_at d 8) in
    (* START always resyncs, even mid-transaction *)
    if (cmd =? 1) && (byte_val =? 0x5A) then
      (if negb (State_eqb (state d) ST_IDLE)
       then _put_ann ss es ANN_ERROR ["Unexpected START"; "RESYNC"]
       else ret tt) ;;
      _put_ann ss es ANN_BYTE [hex_byte byte_val] ;;
      _put_ann ss es ANN_START ["START"; "S"] ;;
      modify (set_state ST_ADDR_0) ;;
      modify (set_addr_bytes_remaining (addr_bytes options)) ;;
      modify (set_addr 0) ;;
      modify (set_bits []) ;;
      modify (set_errors 0) ;;
      ret true
    else
      _put_ann ss es ANN_BYTE [hex_byte byte_val] ;;
      if cmd =? 1 then
        (if byte_val =? 0xFF then
           _put_ann ss es ANN_END ["END"; "E"] ;;
           modify (set_state ST_IDLE) ;;
           modify (set_is_read false)
         else
           _put_ann ss es ANN_ERROR
             [("Invalid CMD: " ++ hex_byte byte_val)%string; "BAD CMD"] ;;
           modify (set_state ST_IDLE) ;;
           modify (set_is_read false)) ;;
        modify (set_bits []) ;;
        ret true
      else
        match state d with
        | ST_IDLE =>
            _put_ann ss es ANN_ERROR ["Missing START"; "NO START"] ;;
            modify (set_bits []) ;;
            ret true
        | ST_ADDR_0 =>
            modify (set_addr byte_val) ;;
            modify (set_addr_start ss) ;;
            modify (fun s => set_addr_bytes_remaining (addr_bytes_remaining s - 1) s) ;;
            remaining <- gets addr_bytes_remaining ;;
            (if 0 <? remaining then modify (set_state ST_ADDR_N)
             else
               a <- gets addr ;;
               _put_ann ss es ANN_ADDR
                 [("ADDR: " ++ hex_byte a)%string; hex_byte a] ;;
               modify (set_state ST_RW_ID)) ;;
            modify (set_bits []) ;;
            ret true
        | ST_ADDR_N =>
            modify (fun s => set_addr (Z.lor (Z.shiftl (addr s) 8) byte_val) s) ;;
            modify (fun s => set_addr_bytes_remaining (addr_bytes_remaining s - 1) s) ;;
            remaining <- gets addr_bytes_remaining ;;
            (if remaining =? 0 then
               a <- gets addr ;;
               a_start <- gets addr_start ;;
               let fmt := fun v => ("0x" ++ Fmt.fmt_0wX (addr_bytes options * 2) v)%string in
               _put_ann a_start es ANN_ADDR
                 [("ADDR: " ++ fmt a)%string; fmt a] ;;
               modify (set_state ST_RW_ID)
             else ret tt) ;;
            modify (set_bits []) ;;
            ret true
        | ST_RW_ID =>
            modify (set_is_read (negb (Z.land byte_val 0x80 =? 0))) ;;
            let slave_id := Z.land byte_val 0x7F in
            r <- gets is_read ;;
            let rw := (if r then "R" else "W")%string in
            _put_ann ss es ANN_RW
              [(rw ++ " ID:" ++ Fmt.fmt_d slave_id)%string; rw] ;;
            modify (set_state (if r then ST_READ_TRIG else ST_DATA)) ;;
            modify (set_bits []) ;;
            ret true
        | _ =>
            _put_ann ss es ANN_DATA_M [hex_byte byte_val] ;;
            modify (set_bits []) ;;
            ret true
        end.

(** *** The timing classifier *)

(** [int(x)] for a float [x]: truncation towards zero. *)
Definition Qtrunc (q : Q) : Z := Z.quot (Qnum q) (Zpos (Qden q)).

(** [unit = self.samplerate / (self.options['bitrate'] * 5)] *)
Definition unit_time (sr : Z) : Q := (inject_Z sr / inject_Z (bitrate options * 5))%Q.

Definition max_errors : Z := 3.

Section WithUnit.

Variable unit : Q.

Definition thresh : Q := (unit * (5 # 2))%Q.
Definition max_bit_gap : Q := (unit * 10)%Q. (* Max gap within a byte (~2 bit times) *)

Definition is_valid_0 (low_time : Z) : bool :=
  Qle_bool (unit * (1 # 2)) (inject_Z low_time)
  && Qle_bool (inject_Z low_time) (unit * (3 # 2)).

Definition is_valid_1 (low_time : Z) : bool :=
  Qle_bool (unit * (7 # 2)) (inject_Z low_time)
  && Qle_bool (inject_Z low_time) (unit * (9 # 2)).

(** The outcome of the timing check for one low pulse. *)
Inductive Pulse : Set :=
| BadTiming
| BitValue (bit : Z).

Definition classify (low_time : Z) : Pulse :=
  if negb (is_valid_0 low_time || is_valid_1 low_time) then BadTiming
  else BitValue (if negb (Qle_bool (inject_Z low_time) thresh) then 1 else 0).

Definition bit_end_of (fall : Z) : Z := Qtrunc (inject_Z fall + unit * 5)%Q.

(** *** One pass of the [while True] loop *)

Definition in_frame (d : Decoder) : bool :=
  (0 <? List.length (bits d))%nat
  || State_eqb (state d) ST_READ_DATA || State_eqb (state d) ST_SLAVE_END.

(** [last_rise and in_frame and (fall - last_rise) > max_bit_gap];
    [None] and [0] are the falsy values of [last_rise]. *)
Definition gap_detected (last_rise : option Z) (fall : Z) (d : Decoder) : bool :=
  match last_rise with
  | None => false
  | Some lr =>
      negb (lr =? 0) && in_frame d
      && negb (Qle_bool (inject_Z (fall - lr)) max_bit_gap)
  end.

(** Detect framing error: gap too long within a byte or during read sequence. *)
Definition frame_gap (last_rise : option Z) (fall : Z) : M NoneType :=
  d <- gets id ;;
  if gap_detected last_rise fall d then
    _put_ann (match last_rise with Some lr => lr | None => 0 end) fall
      ANN_ERROR ["Frame gap"; "GAP"] ;;
    _resync
  else ret tt.

Definition bit_label (bit : Z) : list string := [Fmt.fmt_d bit].

(** The loop body from [self.wait({0: 'r'})] on. *)
Definition process_pulse (fall rise : Z) : M NoneType :=
  let low_time := rise - fall in
  match classify low_time with
  | BadTiming =>
      _put_ann fall rise ANN_ERROR ["Bad timing"; "TIME"] ;;
      modify (fun s => set_errors (errors s + 1) s) ;;
      e <- gets errors ;;
      if max_errors <=? e then _resync else ret tt
  | BitValue bit =>
      modify (set_errors 0) ;;
      let bit_end := bit_end_of fall in
      st <- gets state ;;
      match st with
      (* Read operation states *)
      | ST_READ_TRIG =>
          _put_ann fall rise ANN_TRIG ["Trigger"; "T"; ">"] ;;
          modify (set_state ST_READ_DATA)
      | ST_READ_DATA =>
          _put_ann fall bit_end ANN_BIT (bit_label bit) ;;
          modify (fun s => set_bits (bits s ++ [(bit, fall, bit_end)]) s) ;;
          n <- gets (fun s => List.length (bits s)) ;;
          if (n =? 8)%nat then
            _decode_slave_byte ;;
            modify (set_state ST_SLAVE_END)
          else ret tt
      | ST_SLAVE_END =>
          modify (set_state ST_READ_TRIG_OR_END)
      | ST_READ_TRIG_OR_END =>
          if bit =? 1 then
            (* CMD=1: END byte starting, switch to master byte decoding *)
            _put_ann fall bit_end ANN_CMD_BIT (bit_label bit) ;;
            modify (fun s => set_bits (bits s ++ [(bit, fall, bit_end)]) s) ;;
            modify (set_state ST_DATA)
          else
            (* Another read trigger *)
            _put_ann fall rise ANN_TRIG ["Trigger"; "T"; ">"] ;;
            modify (set_state ST_READ_DATA)
      | _ =>
          (* Master byte handling *)
          n <- gets (fun s => List.length (bits s)) ;;
          if (n =? 9)%nat then
            _decode_byte ;; ret tt
          else
            let ann_idx := if (n =? 0)%nat then ANN_CMD_BIT else ANN_BIT in
            _put_ann fall bit_end ann_idx (bit_label bit) ;;
            modify (fun s => set_bits (bits s ++ [(bit, fall, bit_end)]) s)
      end
  end.

(** The edge source is the list of the sample numbers that the
    successive [self.wait] calls return: a falling edge, the next rising
    edge, and so on.  The run ends when the source is exhausted, which
    can be after a falling edge. *)
Fixpoint decode_loop (last_rise : option Z) (edges : list Z) : M NoneType :=
  match edges with
  | [] => ret tt
  | fall :: after_fall =>
      frame_gap last_rise fall ;;
      match after_fall with
      | [] => ret tt
      | rise :: rest =>
          process_pulse fall rise ;;
          decode_loop (Some rise) rest
      end
  end.

End WithUnit.

(** The exceptions [decode] can raise before its loop. *)
Inductive Exn : Set :=
| SamplerateError
| ZeroDivisionError.

Definition decode (edges : list Z) (d : Decoder) : Exn + Decoder * list Ann :=
  match samplerate d with
  | None => inl SamplerateError
  | Some sr =>
      if sr =? 0 then inl SamplerateError
      else if bitrate options * 5 =? 0 then inl ZeroDivisionError
      else
        let r := decode_loop (unit_time sr) None edges d in
        inr (final r, output r)
  end.

End WithOptions.

(** ** Pulse streams, frames and transactions

    A pulse is a falling edge and the rising edge after it.  The
    definitions below describe the streams the properties are about;
    they are all computable. *)

Definition edges_of (ps : list (Z * Z)) : list Z :=
  flat_map (fun p => [fst p; snd p]) ps.

(** The rising edge a stream leaves behind as [last_rise]. *)
Fixpoint last_rise_from (lr : Z) (ps : list (Z * Z)) : Z :=
  match ps with
  | [] => lr
  | p :: ps' => last_rise_from (snd p) ps'
  end.

Definition last_rise_after (last_rise : option Z) (ps : list (Z * Z)) : option Z :=
  match ps with
  | [] => last_rise
  | p :: ps' => Some (last_rise_from (snd p) ps')
  end.

(** The eight data bits of a byte value, most significant first. *)
Definition byte_bits (v : Z) : list Z :=
  map (fun i => Z.b2z (Z.testbit v (Z.of_nat (7 - i)))) (seq 0 8).

Definition is_byte (v : Z) : bool := (0 <=? v) && (v <? 256).

(** Big-endian accumulation [value = (value << 8) | next_byte]. *)
Definition addr_value (bs : list Z) : Z :=
  fold_left (fun a b => Z.lor (Z.shiftl a 8) b) bs 0.

(** The annotations other than the raw bit, byte and trigger rows. *)
Definition is_semantic (a : Ann) : bool :=
  match ann_idx a with
  | ANN_BIT | ANN_CMD_BIT | ANN_BYTE | ANN_TRIG => false
  | _ => true
  end.

Definition is_error (a : Ann) : bool :=
  match ann_idx a with ANN_ERROR => true | _ => false end.

Definition is_bit_ann (a : Ann) : bool :=
  match ann_idx a with ANN_BIT | ANN_CMD_BIT => true | _ => false end.

Section Streams.

Variable options : Options.
Variable unit : Q.

Definition pulse_class (p : Z * Z) : Pulse := classify unit (snd p - fst p).

Definition valid (p : Z * Z) : bool :=
  match pulse_class p with BitValue _ => true | BadTiming => false end.

Definition carries (b : Z) (p : Z * Z) : bool :=
  match pulse_class p with BitValue b' => b' =? b | BadTiming => false end.

(** Every pulse but the first falls at most ten units after the rise
    before it. *)
Fixpoint gaps_ok_from (lr : Z) (ps : list (Z * Z)) : bool :=
  match ps with
  | [] => true
  | p :: ps' =>
      Qle_bool (inject_Z (fst p - lr)) (max_bit_gap unit) && gaps_ok_from (snd p) ps'
  end.

Definition gaps_ok (ps : list (Z * Z)) : bool :=
  match ps with
  | [] => true
  | p :: ps' => gaps_ok_from (snd p) ps'
  end.

Fixpoint all_carry (bs : list Z) (ps : list (Z * Z)) : bool :=
  match bs, ps with
  | [], [] => true
  | b :: bs', p :: ps' => carries b p && all_carry bs' ps'
  | _, _ => false
  end.

(** A master frame: CMD bit, eight data bits, end unit. *)
Definition master_frame (cmd v : Z) (ps : list (Z * Z)) : bool :=
  (List.length ps =? 10)%nat
  && all_carry (cmd :: byte_bits v) (firstn 9 ps)
  && forallb valid (skipn 9 ps)
  && gaps_ok ps.

(** A slave frame with the trigger before it: trigger unit, eight data
    bits, end unit. *)
Definition slave_frame (v : Z) (ps : list (Z * Z)) : bool :=
  (List.length ps =? 10)%nat
  && all_carry (0 :: byte_bits v) (firstn 9 ps)
  && forallb valid (skipn 9 ps)
  && gaps_ok ps.

Definition no_pulse : Z * Z := (0, 0).

(** Start sample of the first and end sample of the ninth pulse. *)
Definition frame_ss (ps : list (Z * Z)) : Z := fst (nth 0 ps no_pulse).
Definition frame_es (ps : list (Z * Z)) : Z := bit_end_of unit (fst (nth 8 ps no_pulse)).
(** A slave byte starts at the pulse after the trigger. *)
Definition slave_ss (ps : list (Z * Z)) : Z := fst (nth 1 ps no_pulse).

(** The bit a valid pulse appends to the buffer, and its annotation. *)
Definition pulse_value (p : Z * Z) : Z :=
  match pulse_class p with BitValue b => b | BadTiming => 0 end.

Definition bit_of (p : Z * Z) : Bit :=
  (pulse_value p, fst p, bit_end_of unit (fst p)).

Definition bit_ann (idx : AnnIdx) (p : Z * Z) : Ann :=
  mkAnn (fst p) (bit_end_of unit (fst p)) idx (bit_label (pulse_value p)).

(** The bits a master frame leaves in the buffer before its end unit. *)
Definition frame_bits (ps : list (Z * Z)) : list Bit := map bit_of (firstn 9 ps).

(** The bit annotations of the first nine pulses of a frame. *)
Definition frame_anns (ps : list (Z * Z)) : list Ann :=
  match ps with
  | [] => []
  | p :: ps' => bit_ann ANN_CMD_BIT p :: map (bit_ann ANN_BIT) (firstn 8 ps')
  end.

(** The value of a sequence of bits, most significant first. *)
Definition bits_value (bs : list Z) : Z :=
  fold_left (fun acc b => Z.lor (Z.shiftl acc 1) b) bs 0.

(** One complete transaction, frame by frame, each byte value with the
    pulses that carry it. *)
Record Transaction : Type := mkTransaction {
  tx_start : list (Z * Z);
  tx_addr : list (Z * list (Z * Z));
  tx_rw : Z * list (Z * Z);
  tx_data : list (Z * list (Z * Z));
  tx_end : list (Z * Z)
}.

Definition tx_is_read (t : Transaction) : bool := Z.testbit (fst (tx_rw t)) 7.

Definition tx_pulses (t : Transaction) : list (Z * Z) :=
  tx_start t ++ List.concat (map snd (tx_addr t)) ++ snd (tx_rw t)
  ++ List.concat (map snd (tx_data t)) ++ tx_end t.

Definition byte_frame (slave : bool) (f : Z * list (Z * Z)) : bool :=
  is_byte (fst f)
  && (if slave then slave_frame (fst f) (snd f) else master_frame 0 (fst f) (snd f)).

Definition well_formed (t : Transaction) : bool :=
  master_frame 1 0x5A (tx_start t)
  && (Z.of_nat (List.length (tx_addr t)) =? addr_bytes options)
  && forallb (byte_frame false) (tx_addr t)
  && byte_frame false (tx_rw t)
  && forallb (byte_frame (tx_is_read t)) (tx_data t)
  && master_frame 1 0xFF (tx_end t).

Definition addr_label (v : Z) : string :=
  ("0x" ++ Fmt.fmt_0wX (addr_bytes options * 2) v)%string.

Definition start_event (ps : list (Z * Z)) : Ann :=
  mkAnn (frame_ss ps) (frame_es ps) ANN_START ["START"; "S"].

Definition addr_event (fs : list (Z * list (Z * Z))) : Ann :=
  let v := addr_value (map fst fs) in
  mkAnn (frame_ss (snd (hd (0, []) fs))) (frame_es (snd (last fs (0, []))))
        ANN_ADDR [("ADDR: " ++ addr_label v)%string; addr_label v].

Definition rw_event (f : Z * list (Z * Z)) : Ann :=
  let rw := if Z.testbit (fst f) 7 then "R" else "W" in
  mkAnn (frame_ss (snd f)) (frame_es (snd f)) ANN_RW
        [(rw ++ " ID:" ++ Fmt.fmt_d (Z.land (fst f) 0x7F))%string; rw].

Definition data_event (slave : bool) (f : Z * list (Z * Z)) : Ann :=
  if slave
  then mkAnn (slave_ss (snd f)) (frame_es (snd f)) ANN_DATA_S [hex_byte (fst f)]
  else mkAnn (frame_ss (snd f)) (frame_es (snd f)) ANN_DATA_M [hex_byte (fst f)].

Definition end_event (ps : list (Z * Z)) : Ann :=
  mkAnn (frame_ss ps) (frame_es ps) ANN_END ["END"; "E"].

Definition expected_events (t : Transaction) : list Ann :=
  [start_event (tx_start t); addr_event (tx_addr t); rw_event (tx_rw t)]
  ++ map (data_event (tx_is_read t)) (tx_data t)
  ++ [end_event (tx_end t)].

(** The decoder states the loop can be in, between any two of its
    steps, in a run that started from a constructed decoder. *)
Inductive reachable : Decoder -> Prop :=
| reachable_init (d0 : Decoder) (sr : Z) :
    reachable (metadata sr (init d0))
| reachable_gap (d : Decoder) (last_rise : option Z) (fall : Z) :
    reachable d -> reachable (final (frame_gap unit last_rise fall d))
| reachable_pulse (d : Decoder) (fall rise : Z) :
    reachable d -> reachable (final (process_pulse options unit fall rise d)).

(** The states in which a valid pulse goes to master byte handling. *)
Definition master_state (s : State) : bool :=
  match s with
  | ST_READ_TRIG | ST_READ_DATA | ST_SLAVE_END | ST_READ_TRIG_OR_END => false
  | _ => true
  end.

(** The decoder as [_resync] leaves it. *)
Definition resynced (d : Decoder) : Decoder :=
  set_is_read false (set_state ST_IDLE (set_errors 0 (set_bits [] d))).

End Streams.

(** Sample streams at unit 10 (48 MHz capture, 960 kbit/s), for tests:
    bit 0 is 10 samples low, bit 1 is 40 samples low, slots of 50. *)
Fixpoint pulses_at (t : Z) (bs : list Z) : list (Z * Z) :=
  match bs with
  | [] => []
  | b :: bs' => (t, t + (if b =? 1 then 40 else 10)) :: pulses_at (t + 50) bs'
  end.

Definition fresh_decoder (sr : Z) : Decoder :=
  metadata sr (init (mkDecoder None [] ST_IDLE 0 0 0 false 0)).

(** What holds of the buffer and the counter between any two steps. *)
Definition buffer_ok (d : Decoder) : Prop :=
  match state d with
  | ST_READ_TRIG | ST_SLAVE_END | ST_READ_TRIG_OR_END => bits d = []
  | ST_READ_DATA => (List.length (bits d) < 8)%nat
  | _ => (List.length (bits d) <= 9)%nat
  end.

Definition is_bit (b : Bit) : Prop := bit_value b = 0 \/ bit_value b = 1.

Definition invariant (d : Decoder) : Prop :=
  buffer_ok d /\ 0 <= errors d < 3 /\ Forall is_bit (bits d).

(** Two decoders that the loop cannot tell apart: they agree on all it
    reads.  [is_read] is only read right after it is written, and
    [addr_start] is only read in [ST_ADDR_N], after [ST_ADDR_0] wrote it. *)
Definition same_view (d1 d2 : Decoder) : Prop :=
  bits d1 = bits d2 /\ state d1 = state d2 /\ addr d1 = addr d2
  /\ addr_bytes_remaining d1 = addr_bytes_remaining d2
  /\ errors d1 = errors d2
  /\ (state d1 = ST_ADDR_N -> addr_start d1 = addr_start d2).

(** The decoder right after a START received by a new decoder. *)
Definition after_start (options : Options) : Decoder :=
  mkDecoder None [] ST_ADDR_0 0 0 (addr_bytes options) false 0.

(** ** Further notions used by the properties of the whole decoder *)

Definition is_byte_ann (a : Ann) : bool :=
  match ann_idx a with ANN_BYTE => true | _ => false end.

(** The annotation classes a pulse can put, by the state it meets. *)
Definition may_put (s : State) (i : AnnIdx) : bool :=
  match i with
  | ANN_ERROR => true
  | ANN_BIT => master_state s || State_eqb s ST_READ_DATA
  | ANN_CMD_BIT => master_state s || State_eqb s ST_READ_TRIG_OR_END
  | ANN_BYTE => master_state s || State_eqb s ST_READ_DATA
  | ANN_START | ANN_END => master_state s
  | ANN_ADDR => State_eqb s ST_ADDR_0 || State_eqb s ST_ADDR_N
  | ANN_RW => State_eqb s ST_RW_ID
  | ANN_DATA_M => State_eqb s ST_DATA
  | ANN_DATA_S => State_eqb s ST_READ_DATA
  | ANN_TRIG => State_eqb s ST_READ_TRIG || State_eqb s ST_READ_TRIG_OR_END
  end.

(** Two decoders with the same future: they agree on what the loop can
    still read.  The remaining-bytes counter is only read in the two
    address states, the address and its start only in [ST_ADDR_N];
    START rewrites the first two before any of that. *)
Definition same_future (d1 d2 : Decoder) : Prop :=
  bits d1 = bits d2 /\ state d1 = state d2 /\ errors d1 = errors d2
  /\ (state d1 = ST_ADDR_0 \/ state d1 = ST_ADDR_N ->
      addr_bytes_remaining d1 = addr_bytes_remaining d2)
  /\ (state d1 = ST_ADDR_N ->
      addr d1 = addr d2 /\ addr_start d1 = addr_start d2).

(** What holds of the direction flag and of the address counter
    between any two steps. *)
Definition fields_ok (options : Options) (d : Decoder) : Prop :=
  (state d = ST_IDLE -> is_read d = false)
  /\ (master_state (state d) = false -> is_read d = true)
  /\ (state d = ST_ADDR_0 -> addr_bytes_remaining d = addr_bytes options)
  /\ (state d = ST_ADDR_N -> 0 < addr_bytes_remaining d).

(** A transaction the decoder can follow: well formed, and with at
    least one data byte when it is a read. *)
Definition decodable (options : Options) (unit : Q) (t : Transaction) : bool :=
  well_formed options unit t
  && (negb (tx_is_read t) || negb (List.length (tx_data t) =? 0)%nat).

(** * Properties *)

Lemma State_eqb_spec (a b : State) : reflect (a = b) (State_eqb a b).
Proof.
  destruct a, b; (now apply ReflectT) || (apply ReflectF; discriminate).
Qed.

(** ** The monad *)

Lemma final_bind {A B : Type} (m : M A) (k : A -> M B) (d : Decoder) :
  final (bind m k d) = final (k (result (m d)) (final (m d))).
Proof.
  unfold bind, final, result.
  destruct (m d) as [[a d1] o1]; simpl.
  now destruct (k a d1) as [[b d2] o2].
Qed.

Lemma output_bind {A B : Type} (m : M A) (k : A -> M B) (d : Decoder) :
  output (bind m k d) = output (m d) ++ output (k (result (m d)) (final (m d))).
Proof.
  unfold bind, final, result, output.
  destruct (m d) as [[a d1] o1]; simpl.
  now destruct (k a d1) as [[b d2] o2].
Qed.

Lemma run_eta (r : NoneType * Decoder * list Ann) : r = (tt, final r, output r).
Proof. now destruct r as [[[] d] o]. Qed.

(** ** The timing classifier *)

Ltac qbool :=
  repeat match goal with
    | H : Qle_bool _ _ = true |- _ => apply Qle_bool_iff in H
    | H : Qle_bool ?x ?y = false |- _ =>
        assert (~ (x <= y)%Q) by (rewrite <- Qle_bool_iff; congruence); clear H
    end.

Section Classifier.

Variable unit : Q.
Hypothesis unit_pos : (0 < unit)%Q.




End Classifier.


(** What the loop body does with a pulse that fails the timing check. *)
Lemma process_pulse_bad (options : Options) (unit : Q) (fall rise : Z) (d : Decoder) :
  classify unit (rise - fall) = BadTiming ->
  process_pulse options unit fall rise d
  = (tt,
     (if max_errors <=? errors d + 1 then resynced d
      else set_errors (errors d + 1) d),
     [mkAnn fall rise ANN_ERROR ["Bad timing"; "TIME"]]).
Proof.
  intros Hc. unfold process_pulse. rewrite Hc.
  cbv [bind _put_ann modify gets ret _resync]. cbn [errors set_errors].
  destruct (max_errors <=? errors d + 1); reflexivity.
Qed.



(** ** Single steps of the loop *)

Lemma frame_gap_detected (unit : Q) (last_rise : option Z) (fall : Z) (d : Decoder) :
  gap_detected unit last_rise fall d = true ->
  frame_gap unit last_rise fall d
  = (tt, resynced d,
     [mkAnn (match last_rise with Some lr => lr | None => 0 end) fall
            ANN_ERROR ["Frame gap"; "GAP"]]).
Proof.
  intros H. unfold frame_gap.
  cbv [bind gets id]. rewrite H. reflexivity.
Qed.

Lemma frame_gap_quiet (unit : Q) (last_rise : option Z) (fall : Z) (d : Decoder) :
  gap_detected unit last_rise fall d = false ->
  frame_gap unit last_rise fall d = (tt, d, []).
Proof.
  intros H. unfold frame_gap.
  cbv [bind gets id]. rewrite H. reflexivity.
Qed.

Lemma in_frame_iff (d : Decoder) :
  in_frame d = true
  <-> bits d <> [] \/ state d = ST_READ_DATA \/ state d = ST_SLAVE_END.
Proof.
  unfold in_frame. rewrite !orb_true_iff. split.
  - intros [[H | H] | H].
    + left. destruct (bits d); [discriminate | congruence].
    + right; left. now destruct (State_eqb_spec (state d) ST_READ_DATA).
    + right; right. now destruct (State_eqb_spec (state d) ST_SLAVE_END).
  - intros [H | [H | H]].
    + left; left. destruct (bits d); [congruence | reflexivity].
    + left; right. now rewrite H.
    + right. now rewrite H.
Qed.

Lemma decode_loop_nil (options : Options) (unit : Q) (last_rise : option Z) (d : Decoder) :
  decode_loop options unit last_rise [] d = (tt, d, []).
Proof. reflexivity. Qed.

(** One full pass: the gap check, then the pulse, then the rest. *)
Lemma decode_loop_pulse
  (options : Options) (unit : Q) (last_rise : option Z)
  (fall rise : Z) (rest : list Z) (d : Decoder) :
  let g := frame_gap unit last_rise fall d in
  let p := process_pulse options unit fall rise (final g) in
  let r := decode_loop options unit (Some rise) rest (final p) in
  decode_loop options unit last_rise (fall :: rise :: rest) d
  = (tt, final r, output g ++ output p ++ output r).
Proof.
  cbn [decode_loop]. unfold bind at 1 2.
  destruct (frame_gap unit last_rise fall d) as [[[] d1] o1].
  cbn [final output fst snd].
  destruct (process_pulse options unit fall rise d1) as [[[] d2] o2].
  cbn [final output fst snd].
  destruct (decode_loop options unit (Some rise) rest d2) as [[[] d3] o3].
  reflexivity.
Qed.

(** C7: when a previous rising edge exists, the decoder is in-frame
    (bit buffer non-empty, or state read-data or slave-end) and the gap
    from that rise to the new fall exceeds ten units, the decoder puts
    exactly one framing error and resynchronises (bit buffer, error
    counter and direction cleared, state Idle) before the new pulse is
    classified; when it is not in-frame, or the gap is at most ten
    units, or there is no previous rise, nothing is put and nothing
    changes. *)
Theorem frame_gap_monitor
  (options : Options) (unit : Q) (lr fall : Z) (d : Decoder)
  (Hlr : lr <> 0) :
  ((bits d <> [] \/ state d = ST_READ_DATA \/ state d = ST_SLAVE_END) ->
   (max_bit_gap unit < inject_Z (fall - lr))%Q ->
   frame_gap unit (Some lr) fall d
   = (tt, resynced d, [mkAnn lr fall ANN_ERROR ["Frame gap"; "GAP"]])
   /\ bits (resynced d) = [] /\ errors (resynced d) = 0
   /\ is_read (resynced d) = false /\ state (resynced d) = ST_IDLE
   /\ forall rise rest,
       let p := process_pulse options unit fall rise (resynced d) in
       let r := decode_loop options unit (Some rise) rest (final p) in
       decode_loop options unit (Some lr) (fall :: rise :: rest) d
       = (tt, final r,
          [mkAnn lr fall ANN_ERROR ["Frame gap"; "GAP"]] ++ output p ++ output r))
  /\ ((~ (bits d <> [] \/ state d = ST_READ_DATA \/ state d = ST_SLAVE_END)
       \/ (inject_Z (fall - lr) <= max_bit_gap unit)%Q) ->
      frame_gap unit (Some lr) fall d = (tt, d, [])
      /\ forall rise rest,
          let p := process_pulse options unit fall rise d in
          let r := decode_loop options unit (Some rise) rest (final p) in
          decode_loop options unit (Some lr) (fall :: rise :: rest) d
          = (tt, final r, output p ++ output r))
  /\ frame_gap unit None fall d = (tt, d, []).
Proof.
  split; [| split].
  - intros Hin Hgap.
    assert (Hg : gap_detected unit (Some lr) fall d = true).
    { unfold gap_detected.
      apply in_frame_iff in Hin. rewrite Hin.
      destruct (Z.eqb_spec lr 0); [contradiction|].
      destruct (Qle_bool (inject_Z (fall - lr)) (max_bit_gap unit)) eqn:E;
        [qbool; lra | reflexivity]. }
    pose proof (frame_gap_detected unit (Some lr) fall d Hg) as Hf.
    repeat split; try assumption.
    intros rise rest p r.
    rewrite decode_loop_pulse. rewrite Hf. reflexivity.
  - intros Hno.
    assert (Hg : gap_detected unit (Some lr) fall d = false).
    { unfold gap_detected.
      destruct Hno as [Hno | Hno].
      - rewrite <- in_frame_iff in Hno.
        destruct (in_frame d); [now elim Hno|].
        now rewrite andb_false_r.
      - apply Qle_bool_iff in Hno. rewrite Hno. now rewrite andb_false_r. }
    pose proof (frame_gap_quiet unit (Some lr) fall d Hg) as Hf.
    split; [assumption|].
    intros rise rest p r.
    rewrite decode_loop_pulse. rewrite Hf. reflexivity.
  - reflexivity.
Qed.

Lemma frame_gap_monitor_witness :
  let u := unit_time default_options 48000000 in
  let d := mkDecoder (Some 48000000) [(1, 100, 150)] ST_IDLE 0 0 0 false 0 in
  140 <> 0
  /\ frame_gap u (Some 140) 400 d
     = (tt, resynced d, [mkAnn 140 400 ANN_ERROR ["Frame gap"; "GAP"]]).
Proof.
  intros u d.
  assert (Hlr : 140 <> 0) by discriminate.
  split; [exact Hlr |].
  destruct (frame_gap_monitor default_options u 140 400 d Hlr) as [Hfire _].
  apply Hfire.
  - left. discriminate.
  - vm_compute. reflexivity.
Defined.

(** Unfold the monad and split on every condition in sight. *)
Ltac unfold_monad :=
  cbv [bind modify gets ret _put_ann _resync id final output result];
  cbn [fst snd samplerate bits state addr addr_start addr_bytes_remaining
       is_read errors set_samplerate set_bits set_state set_addr
       set_addr_start set_addr_bytes_remaining set_is_read set_errors].

Ltac split_if :=
  match goal with
  | |- context [if ?c then _ else _] => destruct c eqn:?
  | |- context [match state ?d with _ => _ end] => destruct (state d) eqn:?
  end.

Ltac crunch := unfold_monad; repeat (split_if; unfold_monad).

Section Steps.

Variable options : Options.
Variable unit : Q.
Variables fall rise bit : Z.
Hypothesis Hvalid : classify unit (rise - fall) = BitValue bit.

Let new_bit : Bit := (bit, fall, bit_end_of unit fall).

Lemma process_read_trig (d : Decoder) :
  state d = ST_READ_TRIG ->
  process_pulse options unit fall rise d
  = (tt, set_state ST_READ_DATA (set_errors 0 d),
     [mkAnn fall rise ANN_TRIG ["Trigger"; "T"; ">"]]).
Proof.
  intros Hs. unfold process_pulse. rewrite Hvalid.
  unfold_monad. rewrite Hs. reflexivity.
Qed.

Lemma process_read_data (d : Decoder) :
  state d = ST_READ_DATA ->
  List.length (bits d) <> 7%nat ->
  process_pulse options unit fall rise d
  = (tt, set_bits (bits d ++ [new_bit]) (set_errors 0 d),
     [mkAnn fall (bit_end_of unit fall) ANN_BIT (bit_label bit)]).
Proof.
  intros Hs Hn. unfold process_pulse. rewrite Hvalid.
  unfold_monad. rewrite Hs. unfold_monad.
  rewrite length_app. cbn [List.length].
  destruct (Nat.eqb_spec (List.length (bits d) + 1) 8); [lia | reflexivity].
Qed.

Lemma process_read_data_last (d : Decoder) :
  state d = ST_READ_DATA ->
  List.length (bits d) = 7%nat ->
  let full := set_bits (bits d ++ [new_bit]) (set_errors 0 d) in
  let byte_val := fold_byte full 0 in
  let ss := bit_ss (bit_at full 0) in
  let es := bit_es (bit_at full 7) in
  process_pulse options unit fall rise d
  = (tt, set_state ST_SLAVE_END (set_bits [] (set_errors 0 d)),
     [mkAnn fall (bit_end_of unit fall) ANN_BIT (bit_label bit);
      mkAnn ss es ANN_BYTE [hex_byte byte_val];
      mkAnn ss es ANN_DATA_S [hex_byte byte_val]]).
Proof.
  intros Hs Hn. unfold process_pulse. rewrite Hvalid.
  unfold_monad. rewrite Hs. unfold_monad.
  rewrite length_app, Hn. cbn [List.length Nat.add Nat.eqb].
  unfold _decode_slave_byte. unfold_monad.
  rewrite length_app, Hn. cbn [List.length Nat.add Nat.ltb Nat.leb].
  unfold_monad. reflexivity.
Qed.

Lemma process_slave_end (d : Decoder) :
  state d = ST_SLAVE_END ->
  process_pulse options unit fall rise d
  = (tt, set_state ST_READ_TRIG_OR_END (set_errors 0 d), []).
Proof.
  intros Hs. unfold process_pulse. rewrite Hvalid.
  unfold_monad. rewrite Hs. reflexivity.
Qed.

Lemma process_trig_or_end (d : Decoder) :
  state d = ST_READ_TRIG_OR_END ->
  process_pulse options unit fall rise d
  = if bit =? 1
    then (tt, set_state ST_DATA (set_bits (bits d ++ [new_bit]) (set_errors 0 d)),
          [mkAnn fall (bit_end_of unit fall) ANN_CMD_BIT (bit_label bit)])
    else (tt, set_state ST_READ_DATA (set_errors 0 d),
          [mkAnn fall rise ANN_TRIG ["Trigger"; "T"; ">"]]).
Proof.
  intros Hs. unfold process_pulse. rewrite Hvalid.
  unfold_monad. rewrite Hs. destruct (bit =? 1); reflexivity.
Qed.

Lemma process_master_bit (d : Decoder) :
  master_state (state d) = true ->
  List.length (bits d) <> 9%nat ->
  process_pulse options unit fall rise d
  = (tt, set_bits (bits d ++ [new_bit]) (set_errors 0 d),
     [mkAnn fall (bit_end_of unit fall)
            (if (List.length (bits d) =? 0)%nat then ANN_CMD_BIT else ANN_BIT)
            (bit_label bit)]).
Proof.
  intros Hs Hn. unfold process_pulse. rewrite Hvalid.
  apply Nat.eqb_neq in Hn.
  destruct d as [sr bs st a a0 rem ir e]; cbn in Hs, Hn.
  destruct st; try discriminate Hs; unfold_monad; rewrite Hn; reflexivity.
Qed.

Lemma process_master_end_unit (d : Decoder) :
  master_state (state d) = true ->
  List.length (bits d) = 9%nat ->
  let r := _decode_byte options (set_errors 0 d) in
  process_pulse options unit fall rise d = (tt, final r, output r).
Proof.
  intros Hs Hn. unfold process_pulse. rewrite Hvalid.
  destruct d as [sr bs st a a0 rem ir e]; cbn in Hs, Hn.
  destruct st; try discriminate Hs; unfold_monad; rewrite Hn; cbn [Nat.eqb];
    unfold set_errors; cbn [samplerate bits state addr addr_start
                            addr_bytes_remaining is_read errors];
    match goal with
    | |- context [_decode_byte options ?x] =>
        destruct (_decode_byte options x) as [[b d'] o]
    end; cbn [fst snd]; now rewrite app_nil_r.
Qed.

End Steps.

(** ** Interpretation of a completed master byte, case by case *)

Section DecodeByte.

Variable options : Options.
Variable d : Decoder.
Hypothesis Hlen : (9 <= List.length (bits d))%nat.

Let cmd := bit_value (bit_at d 0).
Let byte_val := fold_byte d 1.
Let ss := bit_ss (bit_at d 0).
Let es := bit_es (bit_at d 8).

Lemma length_guard : (List.length (bits d) <? 9)%nat = false.
Proof. apply Nat.ltb_ge. exact Hlen. Qed.

Ltac start_decode :=
  unfold _decode_byte; unfold_monad; rewrite length_guard;
  fold cmd byte_val ss es.

Lemma decode_start :
  cmd = 1 -> byte_val = 0x5A ->
  _decode_byte options d
  = (true,
     set_errors 0 (set_bits [] (set_addr 0
       (set_addr_bytes_remaining (addr_bytes options) (set_state ST_ADDR_0 d)))),
     (if negb (State_eqb (state d) ST_IDLE)
      then [mkAnn ss es ANN_ERROR ["Unexpected START"; "RESYNC"]] else [])
     ++ [mkAnn ss es ANN_BYTE [hex_byte byte_val];
         mkAnn ss es ANN_START ["START"; "S"]]).
Proof.
  intros Hc Hv. start_decode. rewrite Hc, Hv. cbn [Z.eqb Pos.eqb andb].
  destruct (negb (State_eqb (state d) ST_IDLE)); reflexivity.
Qed.

Lemma decode_end :
  cmd = 1 -> byte_val = 0xFF ->
  _decode_byte options d
  = (true, set_bits [] (set_is_read false (set_state ST_IDLE d)),
     [mkAnn ss es ANN_BYTE [hex_byte byte_val];
      mkAnn ss es ANN_END ["END"; "E"]]).
Proof.
  intros Hc Hv. start_decode. rewrite Hc, Hv. reflexivity.
Qed.

Lemma decode_invalid_cmd :
  cmd = 1 -> byte_val <> 0x5A -> byte_val <> 0xFF ->
  _decode_byte options d
  = (true, set_bits [] (set_is_read false (set_state ST_IDLE d)),
     [mkAnn ss es ANN_BYTE [hex_byte byte_val];
      mkAnn ss es ANN_ERROR
        [("Invalid CMD: " ++ hex_byte byte_val)%string; "BAD CMD"]]).
Proof.
  intros Hc Hv1 Hv2. start_decode. rewrite Hc.
  apply Z.eqb_neq in Hv1, Hv2. rewrite Hv1, Hv2. reflexivity.
Qed.

Lemma decode_missing_start :
  cmd <> 1 -> state d = ST_IDLE ->
  _decode_byte options d
  = (true, set_bits [] d,
     [mkAnn ss es ANN_BYTE [hex_byte byte_val];
      mkAnn ss es ANN_ERROR ["Missing START"; "NO START"]]).
Proof.
  intros Hc Hs. start_decode. apply Z.eqb_neq in Hc. rewrite Hc, Hs.
  reflexivity.
Qed.

Lemma decode_addr_0 :
  cmd <> 1 -> state d = ST_ADDR_0 ->
  _decode_byte options d
  = if 0 <? addr_bytes_remaining d - 1
    then (true,
          set_bits [] (set_state ST_ADDR_N
            (set_addr_bytes_remaining (addr_bytes_remaining d - 1)
              (set_addr_start ss (set_addr byte_val d)))),
          [mkAnn ss es ANN_BYTE [hex_byte byte_val]])
    else (true,
          set_bits [] (set_state ST_RW_ID
            (set_addr_bytes_remaining (addr_bytes_remaining d - 1)
              (set_addr_start ss (set_addr byte_val d)))),
          [mkAnn ss es ANN_BYTE [hex_byte byte_val];
           mkAnn ss es ANN_ADDR
             [("ADDR: " ++ hex_byte byte_val)%string; hex_byte byte_val]]).
Proof.
  intros Hc Hs. start_decode. apply Z.eqb_neq in Hc. rewrite Hc, Hs.
  cbn [andb]; unfold_monad. destruct (0 <? addr_bytes_remaining d - 1); reflexivity.
Qed.

Lemma decode_addr_n :
  cmd <> 1 -> state d = ST_ADDR_N ->
  let a := Z.lor (Z.shiftl (addr d) 8) byte_val in
  let fmt := fun v => ("0x" ++ Fmt.fmt_0wX (addr_bytes options * 2) v)%string in
  _decode_byte options d
  = if addr_bytes_remaining d - 1 =? 0
    then (true,
          set_bits [] (set_state ST_RW_ID
            (set_addr_bytes_remaining (addr_bytes_remaining d - 1) (set_addr a d))),
          [mkAnn ss es ANN_BYTE [hex_byte byte_val];
           mkAnn (addr_start d) es ANN_ADDR
             [("ADDR: " ++ fmt a)%string; fmt a]])
    else (true,
          set_bits []
            (set_addr_bytes_remaining (addr_bytes_remaining d - 1) (set_addr a d)),
          [mkAnn ss es ANN_BYTE [hex_byte byte_val]]).
Proof.
  intros Hc Hs. start_decode. apply Z.eqb_neq in Hc. rewrite Hc, Hs.
  cbn [andb]; unfold_monad. destruct (addr_bytes_remaining d - 1 =? 0); reflexivity.
Qed.

Lemma decode_rw_id :
  cmd <> 1 -> state d = ST_RW_ID ->
  let r := negb (Z.land byte_val 0x80 =? 0) in
  let rw := if r then "R" else "W" in
  _decode_byte options d
  = (true,
     set_bits [] (set_state (if r then ST_READ_TRIG else ST_DATA) (set_is_read r d)),
     [mkAnn ss es ANN_BYTE [hex_byte byte_val];
      mkAnn ss es ANN_RW
        [(rw ++ " ID:" ++ Fmt.fmt_d (Z.land byte_val 0x7F))%string; rw]]).
Proof.
  intros Hc Hs. start_decode. apply Z.eqb_neq in Hc. rewrite Hc, Hs.
  cbn [andb]; unfold_monad. destruct (negb (Z.land byte_val 128 =? 0)); reflexivity.
Qed.

Lemma decode_data :
  cmd <> 1 ->
  state d <> ST_IDLE -> state d <> ST_ADDR_0 -> state d <> ST_ADDR_N ->
  state d <> ST_RW_ID ->
  _decode_byte options d
  = (true, set_bits [] d,
     [mkAnn ss es ANN_BYTE [hex_byte byte_val];
      mkAnn ss es ANN_DATA_M [hex_byte byte_val]]).
Proof.
  intros Hc H0 H1 H2 H3. start_decode. apply Z.eqb_neq in Hc. rewrite Hc.
  destruct (state d); try congruence; reflexivity.
Qed.

End DecodeByte.

(** ** The error counter *)

Lemma decode_byte_errors (options : Options) (d : Decoder) :
  errors d = 0 -> errors (final (_decode_byte options d)) = 0.
Proof.
  intros He. unfold _decode_byte. crunch; assumption || reflexivity.
Qed.

Lemma decode_byte_bits (options : Options) (d : Decoder) :
  (9 <= List.length (bits d))%nat -> bits (final (_decode_byte options d)) = [].
Proof.
  intros Hl. apply Nat.ltb_ge in Hl.
  unfold _decode_byte. unfold_monad. rewrite Hl. crunch; reflexivity.
Qed.

Lemma process_pulse_valid_errors
  (options : Options) (unit : Q) (fall rise bit : Z) (d : Decoder) :
  classify unit (rise - fall) = BitValue bit ->
  errors (final (process_pulse options unit fall rise d)) = 0.
Proof.
  intros Hc. destruct (master_state (state d)) eqn:Hm.
  - destruct (Nat.eq_dec (List.length (bits d)) 9) as [H9 | H9].
    + rewrite (process_master_end_unit options unit fall rise bit Hc d Hm H9).
      apply decode_byte_errors. reflexivity.
    + now rewrite (process_master_bit options unit fall rise bit Hc d Hm H9).
  - destruct (state d) eqn:Hs; try discriminate Hm.
    + now rewrite (process_read_trig options unit fall rise bit Hc d Hs).
    + destruct (Nat.eq_dec (List.length (bits d)) 7) as [H7 | H7].
      * now rewrite (process_read_data_last options unit fall rise bit Hc d Hs H7).
      * now rewrite (process_read_data options unit fall rise bit Hc d Hs H7).
    + now rewrite (process_slave_end options unit fall rise bit Hc d Hs).
    + rewrite (process_trig_or_end options unit fall rise bit Hc d Hs).
      now destruct (bit =? 1).
Qed.


(** ** What holds in every reachable state *)

Lemma classify_bit (unit : Q) (low_time bit : Z) :
  classify unit low_time = BitValue bit -> bit = 0 \/ bit = 1.
Proof.
  unfold classify.
  destruct (negb (is_valid_0 unit low_time || is_valid_1 unit low_time));
    [discriminate|].
  destruct (negb (Qle_bool (inject_Z low_time) (thresh unit)));
    intros [= <-]; auto.
Qed.

Lemma invariant_empty (d : Decoder) :
  bits d = [] -> 0 <= errors d < 3 -> invariant d.
Proof.
  intros Hb He. unfold invariant, buffer_ok. rewrite Hb.
  repeat split; try lia; try constructor.
  destruct (state d); cbn; auto; lia.
Qed.

Lemma invariant_frame_gap (unit : Q) (last_rise : option Z) (fall : Z) (d : Decoder) :
  invariant d -> invariant (final (frame_gap unit last_rise fall d)).
Proof.
  intros Hi. destruct (gap_detected unit last_rise fall d) eqn:Hg.
  - rewrite (frame_gap_detected _ _ _ _ Hg). cbn [final fst snd].
    apply invariant_empty; cbn; [reflexivity | lia].
  - now rewrite (frame_gap_quiet _ _ _ _ Hg).
Qed.

Lemma invariant_process_pulse
  (options : Options) (unit : Q) (fall rise : Z) (d : Decoder) :
  invariant d -> invariant (final (process_pulse options unit fall rise d)).
Proof.
  intros (Hb & He & Hf).
  destruct (classify unit (rise - fall)) as [| bit] eqn:Hc.
  - rewrite (process_pulse_bad options unit fall rise d Hc). cbn [final fst snd].
    unfold max_errors. destruct (Z.leb_spec 3 (errors d + 1)).
    + apply invariant_empty; cbn; [reflexivity | lia].
    + repeat split; cbn; try lia; assumption.
  - pose proof (classify_bit _ _ _ Hc) as Hbit.
    assert (Hnew : Forall is_bit (bits d ++ [(bit, fall, bit_end_of unit fall)])).
    { apply Forall_app. split; [assumption|]. constructor; [exact Hbit | constructor]. }
    destruct (master_state (state d)) eqn:Hm.
    + destruct (Nat.eq_dec (List.length (bits d)) 9) as [H9 | H9].
      * rewrite (process_master_end_unit options unit fall rise bit Hc d Hm H9).
        cbn [final fst snd]. apply invariant_empty.
        -- apply decode_byte_bits. cbn. lia.
        -- rewrite decode_byte_errors; [lia | reflexivity].
      * rewrite (process_master_bit options unit fall rise bit Hc d Hm H9).
        cbn [final fst snd]. repeat split; cbn; try lia; try assumption.
        unfold buffer_ok in *. cbn.
        destruct (state d); try discriminate Hm; rewrite length_app; cbn; lia.
    + unfold buffer_ok in Hb.
      destruct (state d) eqn:Hs; try discriminate Hm.
      * rewrite (process_read_trig options unit fall rise bit Hc d Hs).
        cbn [final fst snd]. repeat split; cbn; try lia; try assumption.
        unfold buffer_ok. cbn. rewrite Hb. cbn. lia.
      * destruct (Nat.eq_dec (List.length (bits d)) 7) as [H7 | H7].
        -- rewrite (process_read_data_last options unit fall rise bit Hc d Hs H7).
           cbn [final fst snd]. apply invariant_empty; cbn; [reflexivity | lia].
        -- rewrite (process_read_data options unit fall rise bit Hc d Hs H7).
           cbn [final fst snd]. repeat split; cbn; try lia; try assumption.
           unfold buffer_ok. cbn. rewrite Hs, length_app. cbn. lia.
      * rewrite (process_slave_end options unit fall rise bit Hc d Hs).
        cbn [final fst snd]. apply invariant_empty; cbn; [assumption | lia].
      * rewrite (process_trig_or_end options unit fall rise bit Hc d Hs).
        destruct (bit =? 1); cbn [final fst snd].
        -- repeat split; cbn; try lia; try assumption.
           unfold buffer_ok. cbn. rewrite Hb. cbn. lia.
        -- apply invariant_empty; cbn; [assumption | lia].
Qed.

Lemma reachable_invariant (options : Options) (unit : Q) (d : Decoder) :
  reachable options unit d -> invariant d.
Proof.
  induction 1.
  - apply invariant_empty; cbn; [reflexivity | lia].
  - now apply invariant_frame_gap.
  - now apply invariant_process_pulse.
Qed.

Lemma reachable_full_buffer (options : Options) (unit : Q) (d : Decoder) :
  reachable options unit d -> List.length (bits d) = 9%nat ->
  master_state (state d) = true.
Proof.
  intros Hr H9. destruct (reachable_invariant _ _ _ Hr) as (Hb & _ & _).
  unfold buffer_ok in Hb.
  destruct (state d); try reflexivity;
    try (rewrite Hb in H9; discriminate H9); lia.
Qed.

(** C8: a pulse that fails the timing check puts its single error and
    increments the error counter; when the incremented counter reaches
    3 the decoder is resynchronised (bit buffer, counter and direction
    cleared, state Idle) and nothing more is put; a validly classified
    pulse leaves the counter at 0.  Hence, counting from 0, the first
    and the second consecutive timing error only count and the third
    one resynchronises, also in the loop when no frame gap is detected
    in between; between passes of the loop the counter is always below
    3. *)
Theorem error_counter_resync (options : Options) (unit : Q) (d : Decoder) :
  (forall fall rise,
      classify unit (rise - fall) = BadTiming ->
      let r := process_pulse options unit fall rise d in
      output r = [mkAnn fall rise ANN_ERROR ["Bad timing"; "TIME"]]
      /\ (errors d + 1 < 3 -> final r = set_errors (errors d + 1) d)
      /\ (3 <= errors d + 1 -> final r = resynced d))
  /\ (forall fall rise bit,
         classify unit (rise - fall) = BitValue bit ->
         errors (final (process_pulse options unit fall rise d)) = 0)
  /\ (forall f1 r1 f2 r2 f3 r3,
         errors d = 0 ->
         classify unit (r1 - f1) = BadTiming ->
         classify unit (r2 - f2) = BadTiming ->
         classify unit (r3 - f3) = BadTiming ->
         let s1 := process_pulse options unit f1 r1 d in
         let s2 := process_pulse options unit f2 r2 (final s1) in
         let s3 := process_pulse options unit f3 r3 (final s2) in
         final s1 = set_errors 1 d
         /\ final s2 = set_errors 2 d
         /\ final s3 = resynced d
         /\ output s3 = [mkAnn f3 r3 ANN_ERROR ["Bad timing"; "TIME"]])
  /\ (forall lr f1 r1 f2 r2 f3 r3,
         errors d = 0 ->
         classify unit (r1 - f1) = BadTiming ->
         classify unit (r2 - f2) = BadTiming ->
         classify unit (r3 - f3) = BadTiming ->
         gap_detected unit lr f1 d = false ->
         gap_detected unit (Some r1) f2 d = false ->
         gap_detected unit (Some r2) f3 d = false ->
         decode_loop options unit lr [f1; r1; f2; r2; f3; r3] d
         = (tt, resynced d,
            [mkAnn f1 r1 ANN_ERROR ["Bad timing"; "TIME"];
             mkAnn f2 r2 ANN_ERROR ["Bad timing"; "TIME"];
             mkAnn f3 r3 ANN_ERROR ["Bad timing"; "TIME"]]))
  /\ (reachable options unit d -> 0 <= errors d < 3)
  /\ bits (resynced d) = [] /\ errors (resynced d) = 0
  /\ is_read (resynced d) = false /\ state (resynced d) = ST_IDLE.
Proof.
  split; [| split; [| split; [| split; [| split]]]].
  - intros fall rise Hc r. subst r.
    rewrite (process_pulse_bad options unit fall rise d Hc).
    cbn [final output fst snd]. unfold max_errors.
    repeat split.
    + intros Hlt. destruct (Z.leb_spec 3 (errors d + 1)); [lia | reflexivity].
    + intros Hge. destruct (Z.leb_spec 3 (errors d + 1)); [reflexivity | lia].
  - intros fall rise bit Hc. now apply process_pulse_valid_errors with (bit := bit).
  - intros f1 r1 f2 r2 f3 r3 He H1 H2 H3 s1 s2 s3. subst s1 s2 s3.
    rewrite (process_pulse_bad options unit f1 r1 d H1).
    rewrite He. cbn [final fst snd Z.add Z.leb Z.compare Pos.compare Pos.compare_cont max_errors].
    rewrite (process_pulse_bad options unit f2 r2 _ H2).
    cbn [final fst snd errors set_errors Z.add Pos.add Z.leb Z.compare Pos.compare
         Pos.compare_cont max_errors Pos.succ].
    rewrite (process_pulse_bad options unit f3 r3 _ H3).
    cbn [final output fst snd errors set_errors Z.add Pos.add Z.leb Z.compare
         Pos.compare Pos.compare_cont max_errors Pos.succ].
    repeat split.
  - intros lr f1 r1 f2 r2 f3 r3 He H1 H2 H3 G1 G2 G3.
    rewrite decode_loop_pulse.
    rewrite (frame_gap_quiet _ _ _ _ G1). cbn [final output fst snd].
    rewrite (process_pulse_bad options unit f1 r1 d H1).
    rewrite He. change (max_errors <=? 0 + 1) with false.
    cbn [final output fst snd].
    rewrite decode_loop_pulse.
    rewrite (frame_gap_quiet unit (Some r1) f2 (set_errors (0 + 1) d) G2).
    cbn [final output fst snd].
    rewrite (process_pulse_bad options unit f2 r2 _ H2).
    cbn [errors set_errors]. change (max_errors <=? 0 + 1 + 1) with false.
    cbn [final output fst snd].
    rewrite decode_loop_pulse.
    rewrite (frame_gap_quiet unit (Some r2) f3
               (set_errors (0 + 1 + 1) (set_errors (0 + 1) d)) G3).
    cbn [final output fst snd].
    rewrite (process_pulse_bad options unit f3 r3 _ H3).
    cbn [errors set_errors]. change (max_errors <=? 0 + 1 + 1 + 1) with true.
    reflexivity.
  - intros Hr. now destruct (reachable_invariant _ _ _ Hr) as (_ & He & _).
  - repeat split.
Qed.

Lemma error_counter_resync_witness :
  let u := unit_time default_options 48000000 in
  let d := mkDecoder (Some 48000000) [(1, 100, 150)] ST_DATA 7 0 0 true 0 in
  errors d = 0
  /\ classify u (220 - 200) = BadTiming
  /\ final (process_pulse default_options u 320 340
              (final (process_pulse default_options u 260 280
                        (final (process_pulse default_options u 200 220 d)))))
     = resynced d.
Proof.
  intros u d.
  assert (H1 : classify u (220 - 200) = BadTiming) by (vm_compute; reflexivity).
  assert (H2 : classify u (280 - 260) = BadTiming) by (vm_compute; reflexivity).
  assert (H3 : classify u (340 - 320) = BadTiming) by (vm_compute; reflexivity).
  split; [reflexivity | split; [exact H1 |]].
  destruct (error_counter_resync default_options u d) as (_ & _ & Hthree & _ & _).
  destruct (Hthree 200 220 260 280 320 340 eq_refl H1 H2 H3) as (_ & _ & Hres & _).
  exact Hres.
Defined.

Lemma reachable_decode_loop (options : Options) (unit : Q) (edges : list Z) :
  (forall lr d, reachable options unit d ->
                reachable options unit (final (decode_loop options unit lr edges d)))
  /\ (forall x lr d, reachable options unit d ->
                     reachable options unit
                       (final (decode_loop options unit lr (x :: edges) d))).
Proof.
  induction edges as [| rise rest [IH1 IH2]].
  - split.
    + intros lr d Hr. exact Hr.
    + intros x lr d Hr. cbn [decode_loop]. rewrite final_bind.
      cbn [ret final fst snd]. now apply reachable_gap.
  - split.
    + intros lr d Hr. now apply IH2.
    + intros fall lr d Hr. rewrite decode_loop_pulse. cbn [final fst snd].
      apply IH1. apply reachable_pulse. now apply reachable_gap.
Qed.

Lemma decode_byte_no_bit_ann (options : Options) (d : Decoder) :
  filter is_bit_ann (output (_decode_byte options d)) = [].
Proof. unfold _decode_byte. crunch; reflexivity. Qed.

Lemma decode_byte_result (options : Options) (d : Decoder) :
  (9 <= List.length (bits d))%nat -> result (_decode_byte options d) = true.
Proof.
  intros Hl. apply Nat.ltb_ge in Hl.
  unfold _decode_byte. unfold_monad. rewrite Hl. crunch; reflexivity.
Qed.

(** C9: when nine bits are buffered for a master byte as a validly
    timed pulse is classified, that pulse only triggers the
    interpretation of the buffered byte: the step is [_decode_byte] on
    the buffer as it stands, it puts no bit annotation, leaves the
    buffer empty, and is the same whatever the pulse's edges and bit
    value are; in the loop this is the pass of every such pulse the
    frame gap check lets through.  The pulse that appended the ninth
    bit only put its bit annotation. *)
Theorem end_unit_triggers_decode
  (options : Options) (unit : Q) (d : Decoder) (fall rise bit : Z)
  (Hr : reachable options unit d)
  (H9 : List.length (bits d) = 9%nat)
  (Hc : classify unit (rise - fall) = BitValue bit) :
  let b := _decode_byte options (set_errors 0 d) in
  process_pulse options unit fall rise d = (tt, final b, output b)
  /\ result b = true
  /\ filter is_bit_ann (output b) = []
  /\ bits (final b) = []
  /\ (forall fall' rise' bit',
         classify unit (rise' - fall') = BitValue bit' ->
         process_pulse options unit fall' rise' d
         = process_pulse options unit fall rise d)
  /\ (forall lr rest,
         gap_detected unit lr fall d = false ->
         let r := decode_loop options unit (Some rise) rest (final b) in
         decode_loop options unit lr (fall :: rise :: rest) d
         = (tt, final r, output b ++ output r))
  /\ (forall d8 : Decoder,
         reachable options unit d8 -> List.length (bits d8) = 8%nat ->
         process_pulse options unit fall rise d8
         = (tt, set_bits (bits d8 ++ [(bit, fall, bit_end_of unit fall)])
                         (set_errors 0 d8),
            [mkAnn fall (bit_end_of unit fall) ANN_BIT (bit_label bit)])).
Proof.
  intros b.
  pose proof (reachable_full_buffer _ _ _ Hr H9) as Hm.
  pose proof (process_master_end_unit options unit fall rise bit Hc d Hm H9) as Hp.
  cbv zeta in Hp. fold b in Hp.
  repeat split.
  - exact Hp.
  - apply decode_byte_result. cbn. lia.
  - apply decode_byte_no_bit_ann.
  - apply decode_byte_bits. cbn. lia.
  - intros fall' rise' bit' Hc'. rewrite Hp.
    exact (process_master_end_unit options unit fall' rise' bit' Hc' d Hm H9).
  - intros lr rest Hg r. rewrite decode_loop_pulse.
    rewrite (frame_gap_quiet _ _ _ _ Hg). cbn [final output fst snd].
    rewrite Hp. reflexivity.
  - intros d8 Hr8 H8.
    assert (Hm8 : master_state (state d8) = true).
    { destruct (reachable_invariant _ _ _ Hr8) as (Hb & _ & _).
      unfold buffer_ok in Hb.
      destruct (state d8); try reflexivity;
        try (rewrite Hb in H8; discriminate H8); lia. }
    rewrite (process_master_bit options unit fall rise bit Hc d8 Hm8) by lia.
    rewrite H8. reflexivity.
Qed.

Lemma end_unit_triggers_decode_witness :
  let u := unit_time default_options 48000000 in
  let d := final (decode_loop default_options u None
                    (edges_of (pulses_at 100 [1; 0; 1; 0; 1; 1; 0; 1; 0]))
                    (fresh_decoder 48000000)) in
  reachable default_options u d
  /\ List.length (bits d) = 9%nat
  /\ classify u (560 - 550) = BitValue 0
  /\ process_pulse default_options u 550 560 d
     = (tt, final (_decode_byte default_options (set_errors 0 d)),
        output (_decode_byte default_options (set_errors 0 d))).
Proof.
  intros u d.
  assert (Hr : reachable default_options u d).
  { apply (proj1 (reachable_decode_loop default_options u _)).
    unfold fresh_decoder. apply reachable_init. }
  assert (H9 : List.length (bits d) = 9%nat) by (vm_compute; reflexivity).
  assert (Hc : classify u (560 - 550) = BitValue 0) by (vm_compute; reflexivity).
  split; [exact Hr | split; [exact H9 | split; [exact Hc |]]].
  apply (end_unit_triggers_decode default_options u d 550 560 0 Hr H9 Hc).
Defined.

(** ** A byte completed in Idle *)

(** C3 (amended): when a validly timed pulse completes a 9-bit master
    byte in Idle and the byte is not START, the buffered bits are
    discarded and the decoder stays in Idle; with cmd other than 1 it
    puts the error [Missing START], with cmd 1 and a value other than
    0xFF the error [Invalid CMD], and in these two cases no semantic
    annotation other than that one error; with cmd 1 and value 0xFF it
    puts an END annotation and no error. *)
Theorem idle_byte_not_start
  (options : Options) (unit : Q) (fall rise bit : Z) (d : Decoder)
  (Hc : classify unit (rise - fall) = BitValue bit)
  (H9 : List.length (bits d) = 9%nat)
  (Hidle : state d = ST_IDLE)
  (Hns : ~ (bit_value (bit_at d 0) = 1 /\ fold_byte d 1 = 0x5A)) :
  let cmd := bit_value (bit_at d 0) in
  let byte_val := fold_byte d 1 in
  let ss := bit_ss (bit_at d 0) in
  let es := bit_es (bit_at d 8) in
  let r := process_pulse options unit fall rise d in
  state (final r) = ST_IDLE
  /\ bits (final r) = []
  /\ (cmd <> 1 ->
      output r = [mkAnn ss es ANN_BYTE [hex_byte byte_val];
                  mkAnn ss es ANN_ERROR ["Missing START"; "NO START"]])
  /\ (cmd = 1 -> byte_val <> 0xFF ->
      output r = [mkAnn ss es ANN_BYTE [hex_byte byte_val];
                  mkAnn ss es ANN_ERROR
                    [("Invalid CMD: " ++ hex_byte byte_val)%string; "BAD CMD"]])
  /\ (cmd = 1 -> byte_val = 0xFF ->
      output r = [mkAnn ss es ANN_BYTE [hex_byte byte_val];
                  mkAnn ss es ANN_END ["END"; "E"]])
  /\ (~ (cmd = 1 /\ byte_val = 0xFF) ->
      exists msg, filter is_semantic (output r) = [mkAnn ss es ANN_ERROR msg]).
Proof.
  intros cmd byte_val ss es r.
  assert (Hm : master_state (state d) = true) by now rewrite Hidle.
  assert (Hl : (9 <= List.length (bits (set_errors 0 d)))%nat) by (cbn; lia).
  assert (Hr : r = (tt, final (_decode_byte options (set_errors 0 d)),
                    output (_decode_byte options (set_errors 0 d)))).
  { subst r. exact (process_master_end_unit options unit fall rise bit Hc d Hm H9). }
  destruct (Z.eq_dec cmd 1) as [Hcmd | Hcmd].
  - destruct (Z.eq_dec byte_val 0xFF) as [Hv | Hv].
    + rewrite (decode_end options _ Hl Hcmd Hv) in Hr.
      rewrite Hr. cbn [final output fst snd].
      repeat split; try reflexivity; try contradiction; try (intros; tauto).
    + assert (Hv' : byte_val <> 0x5A) by (intros E; apply Hns; split; assumption).
      rewrite (decode_invalid_cmd options _ Hl Hcmd Hv' Hv) in Hr.
      rewrite Hr. cbn [final output fst snd].
      repeat split; try reflexivity; try contradiction.
      intros _. eexists. reflexivity.
  - rewrite (decode_missing_start options _ Hl Hcmd Hidle) in Hr.
    rewrite Hr. cbn [final output fst snd].
    repeat split; try reflexivity; try contradiction; try assumption.
    intros _. eexists. reflexivity.
Qed.

Lemma idle_byte_not_start_witness :
  let u := unit_time default_options 48000000 in
  let d := mkDecoder (Some 48000000)
             [(0, 100, 150); (0, 150, 200); (0, 200, 250); (1, 250, 300);
              (0, 300, 350); (0, 350, 400); (1, 400, 450); (0, 450, 500);
              (0, 500, 550)]
             ST_IDLE 0 0 0 false 0 in
  classify u (560 - 550) = BitValue 0
  /\ List.length (bits d) = 9%nat
  /\ state d = ST_IDLE
  /\ ~ (bit_value (bit_at d 0) = 1 /\ fold_byte d 1 = 0x5A)
  /\ state (final (process_pulse default_options u 550 560 d)) = ST_IDLE.
Proof.
  intros u d.
  assert (Hc : classify u (560 - 550) = BitValue 0) by (vm_compute; reflexivity).
  assert (Hns : ~ (bit_value (bit_at d 0) = 1 /\ fold_byte d 1 = 0x5A)).
  { intros [H _]. vm_compute in H. discriminate H. }
  split; [exact Hc | split; [reflexivity | split; [reflexivity | split; [exact Hns |]]]].
  apply (idle_byte_not_start default_options u 550 560 0 d Hc eq_refl eq_refl Hns).
Defined.

(** C3 as stated fails: an END byte (cmd=1, value 0xFF) received by a
    fresh decoder, which is in Idle, puts an END annotation and no
    error. *)
Lemma idle_end_byte_counterexample :
  match decode default_options
          (edges_of (pulses_at 100 [1; 1; 1; 1; 1; 1; 1; 1; 1; 0]))
          (fresh_decoder 48000000) with
  | inr (d, out) =>
      filter is_semantic out = [mkAnn 100 550 ANN_END ["END"; "E"]]
      /\ filter is_error out = []
      /\ state d = ST_IDLE
  | inl _ => False
  end.
Proof. vm_compute. repeat split. Qed.

(** ** Determinism *)


(** ** Runs over whole frames *)

Lemma set_errors_same (d : Decoder) : errors d = 0 -> set_errors 0 d = d.
Proof. destruct d; cbn; intros ->; reflexivity. Qed.

Lemma set_bits_same (d : Decoder) : set_bits (bits d) d = d.
Proof. now destruct d. Qed.

Section Frames.

Variable options : Options.
Variable unit : Q.

Lemma last_rise_after_cons (lr : option Z) (p : Z * Z) (ps : list (Z * Z)) :
  last_rise_after lr (p :: ps) = last_rise_after (Some (snd p)) ps.
Proof. now destruct ps. Qed.

Lemma decode_loop_cons (lr : option Z) (p : Z * Z) (ps : list (Z * Z)) (d : Decoder) :
  let g := frame_gap unit lr (fst p) d in
  let s := process_pulse options unit (fst p) (snd p) (final g) in
  let r := decode_loop options unit (Some (snd p)) (edges_of ps) (final s) in
  decode_loop options unit lr (edges_of (p :: ps)) d
  = (tt, final r, output g ++ output s ++ output r).
Proof. apply decode_loop_pulse. Qed.

Lemma decode_loop_app (ps1 ps2 : list (Z * Z)) :
  forall (lr : option Z) (d : Decoder),
    let r1 := decode_loop options unit lr (edges_of ps1) d in
    let r2 := decode_loop options unit (last_rise_after lr ps1) (edges_of ps2) (final r1) in
    decode_loop options unit lr (edges_of (ps1 ++ ps2)) d
    = (tt, final r2, output r1 ++ output r2).
Proof.
  induction ps1 as [| p ps1 IH]; intros lr d.
  - cbn. apply run_eta.
  - cbv zeta. rewrite last_rise_after_cons. cbn [app].
    rewrite !decode_loop_cons. cbn [final output fst snd].
    rewrite IH. cbn [final output fst snd].
    now rewrite <- !app_assoc.
Qed.

Lemma gap_quiet_close (l fall : Z) (d : Decoder) :
  Qle_bool (inject_Z (fall - l)) (max_bit_gap unit) = true ->
  gap_detected unit (Some l) fall d = false.
Proof. intros H. unfold gap_detected. rewrite H. now rewrite andb_false_r. Qed.

Lemma gap_quiet_out_of_frame (lr : option Z) (fall : Z) (d : Decoder) :
  in_frame d = false -> gap_detected unit lr fall d = false.
Proof.
  intros H. unfold gap_detected. destruct lr; [| reflexivity].
  rewrite H. now rewrite andb_false_r.
Qed.

Lemma valid_class (p : Z * Z) :
  valid unit p = true -> classify unit (snd p - fst p) = BitValue (pulse_value unit p).
Proof.
  unfold valid, pulse_value, pulse_class.
  now destruct (classify unit (snd p - fst p)).
Qed.

Lemma carries_valid (b : Z) (p : Z * Z) :
  carries unit b p = true -> valid unit p = true /\ pulse_value unit p = b.
Proof.
  unfold carries, valid, pulse_value.
  destruct (pulse_class unit p); [discriminate|].
  intros H. apply Z.eqb_eq in H. now split.
Qed.

Lemma all_carry_valid (bs : list Z) :
  forall ps, all_carry unit bs ps = true ->
             forallb (valid unit) ps = true /\ map (pulse_value unit) ps = bs.
Proof.
  induction bs as [| b bs IH]; intros [| p ps] H; try discriminate H.
  - now split.
  - cbn in H. apply andb_prop in H. destruct H as [Hc Hr].
    apply carries_valid in Hc. destruct Hc as [Hv Hb].
    destruct (IH _ Hr) as [Hvs Hbs].
    cbn. rewrite Hv, Hvs, Hb, Hbs. now split.
Qed.

(** Valid pulses inside a master byte are appended to the buffer. *)
Lemma master_bits_run (ps : list (Z * Z)) :
  forall (d : Decoder) (l : Z),
    master_state (state d) = true ->
    errors d = 0 ->
    bits d <> [] ->
    (List.length (bits d) + List.length ps <= 9)%nat ->
    forallb (valid unit) ps = true ->
    gaps_ok_from unit l ps = true ->
    decode_loop options unit (Some l) (edges_of ps) d
    = (tt, set_bits (bits d ++ map (bit_of unit) ps) d, map (bit_ann unit ANN_BIT) ps).
Proof.
  induction ps as [| p ps IH]; intros d l Hm He Hb Hl Hv Hg.
  - cbn. now rewrite app_nil_r, set_bits_same.
  - cbn in Hv, Hg, Hl. apply andb_prop in Hv, Hg.
    destruct Hv as [Hv Hvs]. destruct Hg as [Hg Hgs].
    rewrite decode_loop_cons.
    rewrite (frame_gap_quiet _ _ _ _ (gap_quiet_close _ _ d Hg)).
    cbn [final output fst snd].
    rewrite (process_master_bit options unit _ _ _ (valid_class p Hv) d Hm) by lia.
    cbn [final output fst snd].
    rewrite (set_errors_same d He).
    rewrite IH; cbn [bits set_bits state errors]; try assumption.
    + rewrite <- app_assoc. cbn [app map]. f_equal. f_equal.
      destruct (bits d); [contradiction | reflexivity].
    + now destruct (bits d).
    + rewrite length_app. cbn. lia.
Qed.

(** Valid pulses in read-data state are appended up to the seventh. *)
Lemma slave_bits_run (ps : list (Z * Z)) :
  forall (d : Decoder) (l : Z),
    state d = ST_READ_DATA ->
    errors d = 0 ->
    (List.length (bits d) + List.length ps <= 7)%nat ->
    forallb (valid unit) ps = true ->
    gaps_ok_from unit l ps = true ->
    decode_loop options unit (Some l) (edges_of ps) d
    = (tt, set_bits (bits d ++ map (bit_of unit) ps) d, map (bit_ann unit ANN_BIT) ps).
Proof.
  induction ps as [| p ps IH]; intros d l Hs He Hl Hv Hg.
  - cbn. now rewrite app_nil_r, set_bits_same.
  - cbn in Hv, Hg, Hl. apply andb_prop in Hv, Hg.
    destruct Hv as [Hv Hvs]. destruct Hg as [Hg Hgs].
    rewrite decode_loop_cons.
    rewrite (frame_gap_quiet _ _ _ _ (gap_quiet_close _ _ d Hg)).
    cbn [final output fst snd].
    rewrite (process_read_data options unit _ _ _ (valid_class p Hv) d Hs) by lia.
    cbn [final output fst snd].
    rewrite (set_errors_same d He).
    rewrite IH; cbn [bits set_bits state errors]; try assumption.
    + rewrite <- app_assoc. reflexivity.
    + rewrite length_app. cbn. lia.
Qed.

End Frames.

Ltac split_bools :=
  repeat match goal with
    | H : (_ && _)%bool = true |- _ =>
        apply andb_prop in H; destruct H
    end.

Ltac use_bools :=
  cbn; repeat match goal with
         | H : ?x = true |- context [?x] => rewrite H
         end; reflexivity.

Ltac ten_pulses ps H :=
  destruct ps as [| ?p0 [| ?p1 [| ?p2 [| ?p3 [| ?p4 [| ?p5 [| ?p6 [| ?p7
                 [| ?p8 [| ?p9 [| ? ?]]]]]]]]]]]; try discriminate H.

Section FrameRuns.

Variable options : Options.
Variable unit : Q.

Lemma bit_anns_not_semantic (idx : AnnIdx) (ps : list (Z * Z)) :
  is_bit_ann (mkAnn 0 0 idx []) = true ->
  filter is_semantic (map (bit_ann unit idx) ps) = [].
Proof.
  intros Hi. induction ps as [| p ps IH]; [reflexivity|].
  cbn [map filter]. rewrite IH.
  destruct idx; try discriminate Hi; reflexivity.
Qed.

Lemma frame_anns_not_semantic (ps : list (Z * Z)) :
  filter is_semantic (frame_anns unit ps) = [].
Proof.
  destruct ps as [| p ps]; [reflexivity|].
  cbn [frame_anns filter is_semantic ann_idx bit_ann].
  now apply bit_anns_not_semantic.
Qed.

(** A frame of nine valid pulses and an end unit, met with an empty
    buffer in a master state, ends in [_decode_byte] on its nine bits. *)
Lemma master_frame_run (ps : list (Z * Z)) (lr : option Z) (d : Decoder) :
  bits d = [] ->
  master_state (state d) = true ->
  List.length ps = 10%nat ->
  forallb (valid unit) ps = true ->
  gaps_ok unit ps = true ->
  let b := _decode_byte options (set_errors 0 (set_bits (frame_bits unit ps) d)) in
  decode_loop options unit lr (edges_of ps) d
  = (tt, final b, frame_anns unit ps ++ output b).
Proof.
  intros Hb Hm Hl Hv Hg b.
  ten_pulses ps Hl.
  cbn in Hv, Hg. split_bools.
  change (edges_of [p0; p1; p2; p3; p4; p5; p6; p7; p8; p9])
    with (edges_of (p0 :: [p1; p2; p3; p4; p5; p6; p7; p8] ++ [p9])).
  rewrite decode_loop_cons.
  rewrite frame_gap_quiet.
  2:{ apply gap_quiet_out_of_frame. unfold in_frame. rewrite Hb.
      now destruct (state d). }
  cbn [final output fst snd].
  rewrite (process_master_bit options unit _ _ _ (valid_class unit p0 ltac:(assumption)) d Hm)
    by (rewrite Hb; discriminate).
  cbn [final output fst snd]. rewrite Hb.
  rewrite decode_loop_app. cbn [final output fst snd].
  rewrite (master_bits_run options unit); cbn [bits set_bits state errors set_errors];
    [ | assumption | reflexivity | discriminate | cbn; lia | use_bools | use_bools ].
  cbn [final output fst snd last_rise_after last_rise_from].
  rewrite decode_loop_cons.
  rewrite frame_gap_quiet by (apply gap_quiet_close; assumption).
  cbn [final output fst snd].
  rewrite (process_master_end_unit options unit _ _ _
             (valid_class unit p9 ltac:(assumption))) by (assumption || reflexivity).
  cbn [final output fst snd edges_of flat_map decode_loop ret app].
  subst b. cbn [frame_bits firstn map app frame_anns].
  rewrite app_nil_r. reflexivity.
Qed.

(** The same frame met in trigger-or-end state with a first bit 1. *)
Lemma end_frame_run (ps : list (Z * Z)) (lr : option Z) (d : Decoder) :
  bits d = [] ->
  state d = ST_READ_TRIG_OR_END ->
  List.length ps = 10%nat ->
  carries unit 1 (nth 0 ps no_pulse) = true ->
  forallb (valid unit) ps = true ->
  gaps_ok unit ps = true ->
  let b := _decode_byte options
             (set_state ST_DATA (set_errors 0 (set_bits (frame_bits unit ps) d))) in
  decode_loop options unit lr (edges_of ps) d
  = (tt, final b, frame_anns unit ps ++ output b).
Proof.
  intros Hb Hs Hl Hc Hv Hg b.
  ten_pulses ps Hl.
  cbn in Hv, Hg. cbn [nth] in Hc. split_bools.
  apply carries_valid in Hc. destruct Hc as [_ Hc].
  change (edges_of [p0; p1; p2; p3; p4; p5; p6; p7; p8; p9])
    with (edges_of (p0 :: [p1; p2; p3; p4; p5; p6; p7; p8] ++ [p9])).
  rewrite decode_loop_cons.
  rewrite frame_gap_quiet.
  2:{ apply gap_quiet_out_of_frame. unfold in_frame. now rewrite Hb, Hs. }
  cbn [final output fst snd].
  rewrite (process_trig_or_end options unit _ _ _ (valid_class unit p0 ltac:(assumption)) d Hs).
  rewrite Hc. cbn [Z.eqb Pos.eqb final output fst snd]. rewrite Hb.
  rewrite decode_loop_app. cbn [final output fst snd].
  rewrite (master_bits_run options unit); cbn [bits set_bits state errors set_errors set_state];
    [ | reflexivity | reflexivity | discriminate | cbn; lia | use_bools | use_bools ].
  cbn [final output fst snd last_rise_after last_rise_from].
  rewrite decode_loop_cons.
  rewrite frame_gap_quiet by (apply gap_quiet_close; assumption).
  cbn [final output fst snd].
  rewrite (process_master_end_unit options unit _ _ _
             (valid_class unit p9 ltac:(assumption))) by reflexivity.
  cbn [final output fst snd edges_of flat_map decode_loop ret app].
  subst b. cbn [frame_bits firstn map app frame_anns].
  rewrite app_nil_r.
  unfold bit_ann, bit_of. rewrite ?Hc. reflexivity.
Qed.

End FrameRuns.

Section SlaveRuns.

Variable options : Options.
Variable unit : Q.

(** A trigger, eight slave bits and the slave end unit, met with an
    empty buffer in read-trigger state, or in trigger-or-end state when
    the trigger pulse does not read as 1. *)
Lemma slave_frame_run (ps : list (Z * Z)) (lr : option Z) (d : Decoder) :
  bits d = [] ->
  state d = ST_READ_TRIG
  \/ (state d = ST_READ_TRIG_OR_END /\ pulse_value unit (nth 0 ps no_pulse) <> 1) ->
  List.length ps = 10%nat ->
  forallb (valid unit) ps = true ->
  gaps_ok unit ps = true ->
  let byte_val := bits_value (map (pulse_value unit) (firstn 8 (skipn 1 ps))) in
  decode_loop options unit lr (edges_of ps) d
  = (tt, set_state ST_READ_TRIG_OR_END (set_errors 0 (set_bits [] d)),
     mkAnn (fst (nth 0 ps no_pulse)) (snd (nth 0 ps no_pulse)) ANN_TRIG
           ["Trigger"; "T"; ">"]
     :: map (bit_ann unit ANN_BIT) (firstn 8 (skipn 1 ps))
     ++ [mkAnn (slave_ss ps) (frame_es unit ps) ANN_BYTE [hex_byte byte_val];
         mkAnn (slave_ss ps) (frame_es unit ps) ANN_DATA_S [hex_byte byte_val]]).
Proof.
  intros Hb Hs Hl Hv Hg byte_val.
  ten_pulses ps Hl.
  cbn in Hv, Hg. cbn [nth] in Hs. split_bools.
  change (edges_of [p0; p1; p2; p3; p4; p5; p6; p7; p8; p9])
    with (edges_of (p0 :: [p1; p2; p3; p4; p5; p6; p7] ++ [p8; p9])).
  rewrite decode_loop_cons.
  rewrite frame_gap_quiet.
  2:{ apply gap_quiet_out_of_frame. unfold in_frame. rewrite Hb.
      destruct Hs as [Hs | [Hs _]]; now rewrite Hs. }
  cbn [final output fst snd].
  assert (Htrig : process_pulse options unit (fst p0) (snd p0) d
                  = (tt, set_state ST_READ_DATA (set_errors 0 d),
                     [mkAnn (fst p0) (snd p0) ANN_TRIG ["Trigger"; "T"; ">"]])).
  { destruct Hs as [Hs | [Hs Hn]].
    - exact (process_read_trig options unit _ _ _
               (valid_class unit p0 ltac:(assumption)) d Hs).
    - rewrite (process_trig_or_end options unit _ _ _
                 (valid_class unit p0 ltac:(assumption)) d Hs).
      apply Z.eqb_neq in Hn. now rewrite Hn. }
  rewrite Htrig. cbn [final output fst snd].
  rewrite decode_loop_app. cbn [final output fst snd].
  rewrite (slave_bits_run options unit);
    cbn [bits set_bits state errors set_errors set_state];
    [ | reflexivity | reflexivity | rewrite Hb; cbn; lia | use_bools | use_bools ].
  cbn [final output fst snd last_rise_after last_rise_from]. rewrite Hb.
  change (edges_of [p8; p9]) with (edges_of (p8 :: [p9])).
  rewrite decode_loop_cons.
  rewrite frame_gap_quiet by (apply gap_quiet_close; assumption).
  cbn [final output fst snd].
  rewrite (process_read_data_last options unit _ _ _
             (valid_class unit p8 ltac:(assumption))) by reflexivity.
  cbn [final output fst snd].
  rewrite decode_loop_cons.
  rewrite frame_gap_quiet by (apply gap_quiet_close; assumption).
  cbn [final output fst snd].
  rewrite (process_slave_end options unit _ _ _
             (valid_class unit p9 ltac:(assumption))) by reflexivity.
  cbn [final output fst snd edges_of flat_map decode_loop ret app].
  reflexivity.
Qed.

End SlaveRuns.

(** ** Byte values of frames *)

Lemma bits_value_byte_bits (v : Z) :
  is_byte v = true -> bits_value (byte_bits v) = v.
Proof.
  intros Hv. unfold is_byte in Hv. apply andb_prop in Hv. destruct Hv as [H0 H1].
  apply Z.leb_le in H0. apply Z.ltb_lt in H1.
  assert (Hall : forallb (fun n => bits_value (byte_bits (Z.of_nat n)) =? Z.of_nat n)
                         (seq 0 256) = true) by (vm_compute; reflexivity).
  rewrite forallb_forall in Hall.
  specialize (Hall (Z.to_nat v)).
  rewrite Z2Nat.id in Hall by lia.
  apply Z.eqb_eq. apply Hall. apply in_seq. lia.
Qed.

Section FrameValues.

Variable unit : Q.

Lemma carry_values (c v : Z) (ps : list (Z * Z)) :
  List.length ps = 10%nat ->
  all_carry unit (c :: byte_bits v) (firstn 9 ps) = true ->
  pulse_value unit (nth 0 ps no_pulse) = c
  /\ map (pulse_value unit) (firstn 8 (skipn 1 ps)) = byte_bits v
  /\ forallb (valid unit) (firstn 9 ps) = true.
Proof.
  intros Hl Hc. apply all_carry_valid in Hc. destruct Hc as [Hv Hm].
  split; [| split]; [| | exact Hv].
  - ten_pulses ps Hl. cbn [firstn map] in Hm. cbn [nth]. congruence.
  - ten_pulses ps Hl. cbn [firstn skipn map] in Hm |- *. congruence.
Qed.

Lemma frame_valid (ps : list (Z * Z)) :
  forallb (valid unit) (firstn 9 ps) = true ->
  forallb (valid unit) (skipn 9 ps) = true ->
  forallb (valid unit) ps = true.
Proof.
  intros H1 H2. rewrite <- (firstn_skipn 9 ps), forallb_app. now rewrite H1, H2.
Qed.

(** What [_decode_byte] reads from the buffer a frame has filled. *)
Lemma frame_bits_read (cmd v : Z) (ps : list (Z * Z)) (D : Decoder) :
  List.length ps = 10%nat ->
  all_carry unit (cmd :: byte_bits v) (firstn 9 ps) = true ->
  is_byte v = true ->
  bits D = frame_bits unit ps ->
  (9 <= List.length (bits D))%nat
  /\ bit_value (bit_at D 0) = cmd
  /\ fold_byte D 1 = v
  /\ bit_ss (bit_at D 0) = frame_ss ps
  /\ bit_es (bit_at D 8) = frame_es unit ps.
Proof.
  intros Hl Hc Hv HD.
  destruct (carry_values cmd v ps Hl Hc) as (Hcmd & Hbits & _).
  unfold bit_at, fold_byte, bit_at. rewrite HD.
  ten_pulses ps Hl.
  cbn [nth] in Hcmd. cbn [firstn skipn] in Hbits.
  split; [cbn; lia |]. split; [exact Hcmd |]. split; [| split; reflexivity].
  rewrite <- (bits_value_byte_bits v Hv), <- Hbits. reflexivity.
Qed.

End FrameValues.

(** ** What each kind of frame does to the decoder *)

Section FrameSteps.

Variable options : Options.
Variable unit : Q.

Lemma master_frame_parts (cmd v : Z) (ps : list (Z * Z)) :
  master_frame unit cmd v ps = true ->
  List.length ps = 10%nat
  /\ all_carry unit (cmd :: byte_bits v) (firstn 9 ps) = true
  /\ forallb (valid unit) ps = true
  /\ gaps_ok unit ps = true.
Proof.
  unfold master_frame. intros H. split_bools.
  assert (Hl : List.length ps = 10%nat) by now apply Nat.eqb_eq.
  repeat split; try assumption.
  apply frame_valid; [| assumption].
  now destruct (carry_values unit cmd v ps Hl ltac:(assumption)) as (_ & _ & ?).
Qed.

(** A master frame met with an empty buffer in a master state: the run
    is [_decode_byte] on a buffer that reads as [cmd] and [v]. *)
Lemma master_frame_decode (cmd v : Z) (ps : list (Z * Z)) (lr : option Z) (d : Decoder) :
  bits d = [] ->
  master_state (state d) = true ->
  master_frame unit cmd v ps = true ->
  is_byte v = true ->
  let D := set_errors 0 (set_bits (frame_bits unit ps) d) in
  decode_loop options unit lr (edges_of ps) d
  = (tt, final (_decode_byte options D),
     frame_anns unit ps ++ output (_decode_byte options D))
  /\ (9 <= List.length (bits D))%nat
  /\ bit_value (bit_at D 0) = cmd
  /\ fold_byte D 1 = v
  /\ bit_ss (bit_at D 0) = frame_ss ps
  /\ bit_es (bit_at D 8) = frame_es unit ps.
Proof.
  intros Hb Hm Hf Hv D.
  destruct (master_frame_parts cmd v ps Hf) as (Hl & Hc & Hval & Hg).
  split.
  - exact (master_frame_run options unit ps lr d Hb Hm Hl Hval Hg).
  - apply (frame_bits_read unit cmd v ps D Hl Hc Hv). reflexivity.
Qed.

(** The END frame of a read, met in trigger-or-end state. *)
Lemma end_frame_decode (v : Z) (ps : list (Z * Z)) (lr : option Z) (d : Decoder) :
  bits d = [] ->
  state d = ST_READ_TRIG_OR_END ->
  master_frame unit 1 v ps = true ->
  is_byte v = true ->
  let D := set_state ST_DATA (set_errors 0 (set_bits (frame_bits unit ps) d)) in
  decode_loop options unit lr (edges_of ps) d
  = (tt, final (_decode_byte options D),
     frame_anns unit ps ++ output (_decode_byte options D))
  /\ (9 <= List.length (bits D))%nat
  /\ bit_value (bit_at D 0) = 1
  /\ fold_byte D 1 = v
  /\ bit_ss (bit_at D 0) = frame_ss ps
  /\ bit_es (bit_at D 8) = frame_es unit ps.
Proof.
  intros Hb Hs Hf Hv D.
  destruct (master_frame_parts 1 v ps Hf) as (Hl & Hc & Hval & Hg).
  split.
  - apply (end_frame_run options unit ps lr d Hb Hs Hl); try assumption.
    destruct (carry_values unit 1 v ps Hl Hc) as (H1 & _ & _).
    unfold carries. unfold pulse_value in H1.
    assert (Hv0 : valid unit (nth 0 ps no_pulse) = true).
    { ten_pulses ps Hl. cbn in Hval. split_bools. assumption. }
    unfold valid in Hv0.
    destruct (pulse_class unit (nth 0 ps no_pulse)); [discriminate|].
    now apply Z.eqb_eq.
  - apply (frame_bits_read unit 1 v ps D Hl Hc Hv). reflexivity.
Qed.

Lemma semantic_frame_output (ps : list (Z * Z)) (o : list Ann) :
  filter is_semantic (frame_anns unit ps ++ o) = filter is_semantic o.
Proof. now rewrite filter_app, frame_anns_not_semantic. Qed.

End FrameSteps.

Section FrameKinds.

Variable options : Options.
Variable unit : Q.

Ltac open_frame H :=
  cbv zeta in H;
  destruct H as (Hrun & Hlen & Hcmd & Hval & Hss & Hes);
  rewrite Hrun; cbn [final output fst snd];
  rewrite semantic_frame_output.

Ltac close_frame_with Hval Hss Hes :=
  cbn [final output fst snd];
  rewrite ?Hval, ?Hss, ?Hes.

Lemma not_one_zero (c : Z) : c = 0 -> c <> 1.
Proof. intros ->. discriminate. Qed.

Lemma run_start_frame (ps : list (Z * Z)) (lr : option Z) (d : Decoder) :
  bits d = [] ->
  master_state (state d) = true ->
  master_frame unit 1 0x5A ps = true ->
  let r := decode_loop options unit lr (edges_of ps) d in
  final r
  = set_errors 0 (set_bits [] (set_addr 0
      (set_addr_bytes_remaining (addr_bytes options) (set_state ST_ADDR_0 d))))
  /\ filter is_semantic (output r)
     = (if negb (State_eqb (state d) ST_IDLE)
        then [mkAnn (frame_ss ps) (frame_es unit ps) ANN_ERROR
                    ["Unexpected START"; "RESYNC"]]
        else [])
       ++ [start_event unit ps].
Proof.
  intros Hb Hm Hf r. subst r.
  pose proof (master_frame_decode options unit 1 0x5A ps lr d Hb Hm Hf eq_refl) as H.
  open_frame H.
  rewrite (decode_start options _ Hlen Hcmd Hval). close_frame_with Hval Hss Hes.
  cbn [state set_errors set_bits].
  split; [reflexivity |].
  now destruct (negb (State_eqb (state d) ST_IDLE)).
Qed.

Lemma run_end_frame (ps : list (Z * Z)) (lr : option Z) (d : Decoder) :
  bits d = [] ->
  master_state (state d) = true \/ state d = ST_READ_TRIG_OR_END ->
  master_frame unit 1 0xFF ps = true ->
  let r := decode_loop options unit lr (edges_of ps) d in
  final r = set_bits [] (set_is_read false (set_state ST_IDLE (set_errors 0 d)))
  /\ filter is_semantic (output r) = [end_event unit ps].
Proof.
  intros Hb Hm Hf r. subst r. destruct Hm as [Hm | Hs].
  - pose proof (master_frame_decode options unit 1 0xFF ps lr d Hb Hm Hf eq_refl) as H.
    open_frame H.
    rewrite (decode_end options _ Hlen Hcmd Hval). close_frame_with Hval Hss Hes.
    split; reflexivity.
  - pose proof (end_frame_decode options unit 0xFF ps lr d Hb Hs Hf eq_refl) as H.
    open_frame H.
    rewrite (decode_end options _ Hlen Hcmd Hval). close_frame_with Hval Hss Hes.
    split; reflexivity.
Qed.

Lemma run_command_frame (v : Z) (ps : list (Z * Z)) (lr : option Z) (d : Decoder) :
  bits d = [] ->
  master_state (state d) = true \/ state d = ST_READ_TRIG_OR_END ->
  master_frame unit 1 v ps = true ->
  is_byte v = true -> v <> 0x5A -> v <> 0xFF ->
  let r := decode_loop options unit lr (edges_of ps) d in
  final r = set_bits [] (set_is_read false (set_state ST_IDLE (set_errors 0 d)))
  /\ filter is_semantic (output r)
     = [mkAnn (frame_ss ps) (frame_es unit ps) ANN_ERROR
              [("Invalid CMD: " ++ hex_byte v)%string; "BAD CMD"]].
Proof.
  intros Hb Hm Hf Hv H5A HFF r. subst r. destruct Hm as [Hm | Hs].
  - pose proof (master_frame_decode options unit 1 v ps lr d Hb Hm Hf Hv) as H.
    open_frame H.
    rewrite (decode_invalid_cmd options _ Hlen Hcmd) by (rewrite Hval; assumption).
    close_frame_with Hval Hss Hes. split; reflexivity.
  - pose proof (end_frame_decode options unit v ps lr d Hb Hs Hf Hv) as H.
    open_frame H.
    rewrite (decode_invalid_cmd options _ Hlen Hcmd) by (rewrite Hval; assumption).
    close_frame_with Hval Hss Hes. split; reflexivity.
Qed.

(** A START frame where the END of a read was expected. *)
Lemma run_restart_frame (ps : list (Z * Z)) (lr : option Z) (d : Decoder) :
  bits d = [] ->
  state d = ST_READ_TRIG_OR_END ->
  master_frame unit 1 0x5A ps = true ->
  let r := decode_loop options unit lr (edges_of ps) d in
  final r
  = set_errors 0 (set_bits [] (set_addr 0
      (set_addr_bytes_remaining (addr_bytes options) (set_state ST_ADDR_0 d))))
  /\ filter is_semantic (output r)
     = [mkAnn (frame_ss ps) (frame_es unit ps) ANN_ERROR
              ["Unexpected START"; "RESYNC"];
        start_event unit ps].
Proof.
  intros Hb Hs Hf r. subst r.
  pose proof (end_frame_decode options unit 0x5A ps lr d Hb Hs Hf eq_refl) as H.
  open_frame H.
  rewrite (decode_start options _ Hlen Hcmd Hval). close_frame_with Hval Hss Hes.
  split; reflexivity.
Qed.

Lemma byte_frame_master (f : Z * list (Z * Z)) :
  byte_frame unit false f = true ->
  is_byte (fst f) = true /\ master_frame unit 0 (fst f) (snd f) = true.
Proof. unfold byte_frame. intros H. now apply andb_prop in H. Qed.

Lemma byte_frame_slave (f : Z * list (Z * Z)) :
  byte_frame unit true f = true ->
  is_byte (fst f) = true /\ slave_frame unit (fst f) (snd f) = true.
Proof. unfold byte_frame. intros H. now apply andb_prop in H. Qed.

Lemma run_addr_0_frame (f : Z * list (Z * Z)) (lr : option Z) (d : Decoder) :
  bits d = [] ->
  state d = ST_ADDR_0 ->
  byte_frame unit false f = true ->
  let r := decode_loop options unit lr (edges_of (snd f)) d in
  let more := 0 <? addr_bytes_remaining d - 1 in
  final r
  = set_bits [] (set_state (if more then ST_ADDR_N else ST_RW_ID)
      (set_addr_bytes_remaining (addr_bytes_remaining d - 1)
        (set_addr_start (frame_ss (snd f)) (set_addr (fst f) (set_errors 0 d)))))
  /\ filter is_semantic (output r)
     = if more then []
       else [mkAnn (frame_ss (snd f)) (frame_es unit (snd f)) ANN_ADDR
                   [("ADDR: " ++ hex_byte (fst f))%string; hex_byte (fst f)]].
Proof.
  intros Hb Hs Hf r more. subst r more.
  destruct (byte_frame_master f Hf) as [Hv Hm].
  assert (Hms : master_state (state d) = true) by now rewrite Hs.
  pose proof (master_frame_decode options unit 0 (fst f) (snd f) lr d Hb Hms Hm Hv) as H.
  open_frame H.
  rewrite (decode_addr_0 options _ Hlen (not_one_zero _ Hcmd) Hs).
  cbn [addr_bytes_remaining set_errors set_bits].
  destruct (0 <? addr_bytes_remaining d - 1); close_frame_with Hval Hss Hes; split; reflexivity.
Qed.

Lemma run_addr_n_frame (f : Z * list (Z * Z)) (lr : option Z) (d : Decoder) :
  bits d = [] ->
  state d = ST_ADDR_N ->
  byte_frame unit false f = true ->
  let r := decode_loop options unit lr (edges_of (snd f)) d in
  let a := Z.lor (Z.shiftl (addr d) 8) (fst f) in
  let done := addr_bytes_remaining d - 1 =? 0 in
  final r
  = set_bits [] (set_state (if done then ST_RW_ID else ST_ADDR_N)
      (set_addr_bytes_remaining (addr_bytes_remaining d - 1)
        (set_addr a (set_errors 0 d))))
  /\ filter is_semantic (output r)
     = if done
       then [mkAnn (addr_start d) (frame_es unit (snd f)) ANN_ADDR
                   [("ADDR: " ++ addr_label options a)%string; addr_label options a]]
       else [].
Proof.
  intros Hb Hs Hf r a done. subst r a done.
  destruct (byte_frame_master f Hf) as [Hv Hm].
  assert (Hms : master_state (state d) = true) by now rewrite Hs.
  pose proof (master_frame_decode options unit 0 (fst f) (snd f) lr d Hb Hms Hm Hv) as H.
  open_frame H.
  rewrite (decode_addr_n options _ Hlen (not_one_zero _ Hcmd) Hs).
  cbn [addr_bytes_remaining addr addr_start state set_errors set_bits].
  destruct (addr_bytes_remaining d - 1 =? 0); close_frame_with Hval Hss Hes; split;
    try reflexivity.
  cbv [set_bits set_state set_addr_bytes_remaining set_addr set_errors].
  cbn [samplerate bits state addr addr_start addr_bytes_remaining is_read errors].
  rewrite Hs. reflexivity.
Qed.

Lemma run_rw_frame (f : Z * list (Z * Z)) (lr : option Z) (d : Decoder) :
  bits d = [] ->
  state d = ST_RW_ID ->
  byte_frame unit false f = true ->
  let r := decode_loop options unit lr (edges_of (snd f)) d in
  let rd := Z.testbit (fst f) 7 in
  final r
  = set_bits [] (set_state (if rd then ST_READ_TRIG else ST_DATA)
      (set_is_read rd (set_errors 0 d)))
  /\ filter is_semantic (output r) = [rw_event unit f].
Proof.
  intros Hb Hs Hf r rd. subst r rd.
  destruct (byte_frame_master f Hf) as [Hv Hm].
  assert (Hms : master_state (state d) = true) by now rewrite Hs.
  pose proof (master_frame_decode options unit 0 (fst f) (snd f) lr d Hb Hms Hm Hv) as H.
  open_frame H.
  rewrite (decode_rw_id options _ Hlen (not_one_zero _ Hcmd) Hs).
  close_frame_with Hval Hss Hes.
  assert (Hbit : negb (Z.land (fst f) 0x80 =? 0) = Z.testbit (fst f) 7).
  { unfold is_byte in Hv. apply andb_prop in Hv. destruct Hv as [H0 H1].
    apply Z.leb_le in H0. apply Z.ltb_lt in H1.
    assert (Hall : forallb (fun n => Bool.eqb (negb (Z.land (Z.of_nat n) 0x80 =? 0))
                                              (Z.testbit (Z.of_nat n) 7))
                           (seq 0 256) = true) by (vm_compute; reflexivity).
    rewrite forallb_forall in Hall. specialize (Hall (Z.to_nat (fst f))).
    rewrite Z2Nat.id in Hall by lia.
    apply Bool.eqb_prop. apply Hall. apply in_seq. lia. }
  rewrite Hbit. unfold rw_event.
  destruct (Z.testbit (fst f) 7); split; reflexivity.
Qed.

Lemma run_data_frame (f : Z * list (Z * Z)) (lr : option Z) (d : Decoder) :
  bits d = [] ->
  state d = ST_DATA ->
  byte_frame unit false f = true ->
  let r := decode_loop options unit lr (edges_of (snd f)) d in
  final r = set_bits [] (set_errors 0 d)
  /\ filter is_semantic (output r) = [data_event unit false f].
Proof.
  intros Hb Hs Hf r. subst r.
  destruct (byte_frame_master f Hf) as [Hv Hm].
  assert (Hms : master_state (state d) = true) by now rewrite Hs.
  pose proof (master_frame_decode options unit 0 (fst f) (snd f) lr d Hb Hms Hm Hv) as H.
  open_frame H.
  rewrite (decode_data options _ Hlen (not_one_zero _ Hcmd))
    by (cbn [state set_errors set_bits]; rewrite Hs; discriminate).
  close_frame_with Hval Hss Hes. split; reflexivity.
Qed.

End FrameKinds.

Section SlaveKinds.

Variable options : Options.
Variable unit : Q.

Lemma slave_frame_parts (v : Z) (ps : list (Z * Z)) :
  slave_frame unit v ps = true ->
  List.length ps = 10%nat
  /\ all_carry unit (0 :: byte_bits v) (firstn 9 ps) = true
  /\ forallb (valid unit) ps = true
  /\ gaps_ok unit ps = true.
Proof.
  unfold slave_frame. intros H. split_bools.
  assert (Hl : List.length ps = 10%nat) by now apply Nat.eqb_eq.
  repeat split; try assumption.
  apply frame_valid; [| assumption].
  now destruct (carry_values unit 0 v ps Hl ltac:(assumption)) as (_ & _ & ?).
Qed.

Lemma run_slave_frame (f : Z * list (Z * Z)) (lr : option Z) (d : Decoder) :
  bits d = [] ->
  state d = ST_READ_TRIG \/ state d = ST_READ_TRIG_OR_END ->
  byte_frame unit true f = true ->
  let r := decode_loop options unit lr (edges_of (snd f)) d in
  final r = set_state ST_READ_TRIG_OR_END (set_errors 0 (set_bits [] d))
  /\ filter is_semantic (output r) = [data_event unit true f]
  /\ hd_error (output r)
     = Some (mkAnn (fst (nth 0 (snd f) no_pulse)) (snd (nth 0 (snd f) no_pulse))
                   ANN_TRIG ["Trigger"; "T"; ">"]).
Proof.
  intros Hb Hs Hf r. subst r.
  destruct (byte_frame_slave unit f Hf) as [Hv Hm].
  destruct (slave_frame_parts (fst f) (snd f) Hm) as (Hl & Hc & Hval & Hg).
  destruct (carry_values unit 0 (fst f) (snd f) Hl Hc) as (H0 & Hbits & _).
  rewrite (slave_frame_run options unit (snd f) lr d Hb); try assumption.
  - cbn [final output fst snd]. rewrite Hbits, (bits_value_byte_bits _ Hv).
    split; [reflexivity |]. split; [| reflexivity].
    cbn [filter is_semantic ann_idx]. rewrite filter_app.
    rewrite bit_anns_not_semantic by reflexivity. reflexivity.
  - destruct Hs as [Hs | Hs]; [now left | right].
    split; [assumption |]. rewrite H0. discriminate.
Qed.

End SlaveKinds.

(** ** Address values and their labels *)

Lemma lor_shiftl_byte (a b : Z) :
  0 <= a -> 0 <= b < 256 -> Z.lor (Z.shiftl a 8) b = a * 256 + b.
Proof.
  intros Ha Hb.
  rewrite Z.shiftl_mul_pow2 by lia. change (2 ^ 8) with 256.
  rewrite <- Z.lxor_lor.
  - symmetry. apply Z.add_nocarry_lxor.
    apply Z.bits_inj'. intros n Hn. rewrite Z.land_spec, Z.bits_0.
    destruct (Z.lt_ge_cases n 8) as [Hlt | Hge].
    + replace (a * 256) with (a * 2 ^ 8) by reflexivity.
      rewrite Z.mul_pow2_bits_low by lia. reflexivity.
    + rewrite (Z.bits_above_log2 b n); [apply andb_false_r | lia |].
      destruct (Z.eq_dec b 0) as [-> | Hnz]; [cbn; lia |].
      apply Z.lt_le_trans with 8; [| exact Hge].
      apply Z.log2_lt_pow2; lia.
  - apply Z.bits_inj'. intros n Hn. rewrite Z.land_spec, Z.bits_0.
    destruct (Z.lt_ge_cases n 8) as [Hlt | Hge].
    + replace (a * 256) with (a * 2 ^ 8) by reflexivity.
      rewrite Z.mul_pow2_bits_low by lia. reflexivity.
    + rewrite (Z.bits_above_log2 b n); [apply andb_false_r | lia |].
      destruct (Z.eq_dec b 0) as [-> | Hnz]; [cbn; lia |].
      apply Z.lt_le_trans with 8; [| exact Hge].
      apply Z.log2_lt_pow2; lia.
Qed.

Lemma addr_fold_bound (bs : list Z) :
  forall a n,
    0 <= a < 256 ^ n -> 0 <= n ->
    forallb is_byte bs = true ->
    0 <= fold_left (fun a b => Z.lor (Z.shiftl a 8) b) bs a
      < 256 ^ (n + Z.of_nat (List.length bs)).
Proof.
  induction bs as [| b bs IH]; intros a n Ha Hn Hb.
  - cbn. now rewrite Z.add_0_r.
  - cbn [forallb] in Hb. apply andb_prop in Hb. destruct Hb as [Hb Hbs].
    unfold is_byte in Hb. apply andb_prop in Hb. destruct Hb as [H0 H1].
    apply Z.leb_le in H0. apply Z.ltb_lt in H1.
    cbn [fold_left List.length].
    replace (n + Z.of_nat (S (List.length bs)))
      with ((n + 1) + Z.of_nat (List.length bs)) by lia.
    apply IH; [| lia | exact Hbs].
    rewrite lor_shiftl_byte by lia.
    rewrite Z.pow_add_r by lia. change (256 ^ 1) with 256. nia.
Qed.

Lemma addr_value_bound (bs : list Z) :
  forallb is_byte bs = true ->
  0 <= addr_value bs < 256 ^ Z.of_nat (List.length bs).
Proof.
  intros Hb. unfold addr_value.
  apply (addr_fold_bound bs 0 0); [cbn; lia | lia | exact Hb].
Qed.

Lemma string_length_append (s1 s2 : string) :
  String.length (s1 ++ s2)%string = (String.length s1 + String.length s2)%nat.
Proof. induction s1 as [| c s1 IH]; cbn; [reflexivity | now rewrite IH]. Qed.

Lemma repeat_char_length (c : ascii) (k : nat) :
  String.length (Fmt.repeat_char c k) = k.
Proof. induction k as [| k IH]; cbn; [reflexivity | now rewrite IH]. Qed.

Lemma zero_pad_length (width : nat) (s : string) :
  (String.length s <= width)%nat -> String.length (Fmt.zero_pad width s) = width.
Proof.
  intros H. unfold Fmt.zero_pad.
  rewrite string_length_append, repeat_char_length. lia.
Qed.

Lemma hex_digits_loop_length (fuel : nat) :
  forall (n : Z) (acc : string) (k : nat),
    (1 <= k)%nat -> 0 <= n < 16 ^ Z.of_nat k ->
    (String.length (Fmt.digits_loop fuel 16 n acc) <= k + String.length acc)%nat.
Proof.
  induction fuel as [| fuel IH]; intros n acc k Hk Hn; cbn [Fmt.digits_loop].
  - lia.
  - destruct (Z.eqb_spec (n / 16) 0) as [Hz | Hnz].
    + cbn [String.length]. lia.
    + assert (H16 : 16 <= n).
      { destruct (Z.lt_ge_cases n 16) as [Hlt | Hge]; [| exact Hge].
        exfalso. apply Hnz. apply Z.div_small. lia. }
      destruct k as [| [| k]]; [lia | cbn in Hn; lia |].
      specialize (IH (n / 16) (String (Fmt.digit_char (n mod 16)) acc) (S k)).
      cbn [String.length] in IH.
      assert (Hdiv : 0 <= n / 16 < 16 ^ Z.of_nat (S k)).
      { split; [apply Z.div_pos; lia |].
        apply Z.div_lt_upper_bound; [lia |].
        replace (16 * 16 ^ Z.of_nat (S k)) with (16 ^ Z.of_nat (S (S k))); [lia |].
        rewrite (Nat2Z.inj_succ (S k)), Z.pow_succ_r by lia. reflexivity. }
      specialize (IH ltac:(lia) Hdiv). lia.
Qed.

(** An address of [w] bytes is formatted with exactly [2 * w] digits. *)
Lemma addr_format_length (w : nat) (v : Z) :
  (1 <= w)%nat -> 0 <= v < 256 ^ Z.of_nat w ->
  String.length (Fmt.fmt_0wX (Z.of_nat w * 2) v) = (2 * w)%nat.
Proof.
  intros Hw Hv. unfold Fmt.fmt_0wX, Fmt.fmt_0X.
  destruct (Z.ltb_spec (Z.of_nat w * 2) 0); [lia |].
  destruct (Z.ltb_spec v 0); [lia |].
  replace (Z.to_nat (Z.of_nat w * 2)) with (2 * w)%nat by lia.
  apply zero_pad_length. unfold Fmt.digits.
  pose proof (hex_digits_loop_length (S (Z.to_nat (Z.log2 v))) v EmptyString (2 * w)) as Hd.
  cbn [String.length] in Hd. rewrite Nat.add_0_r in Hd. apply Hd; [lia |].
  split; [lia |].
  replace (16 ^ Z.of_nat (2 * w)) with (256 ^ Z.of_nat w); [lia |].
  rewrite Nat2Z.inj_mul. change (Z.of_nat 2) with 2.
  rewrite Z.pow_mul_r by lia. reflexivity.
Qed.

(** ** The address phase *)

Ltac fields :=
  cbn [samplerate bits state addr addr_start addr_bytes_remaining is_read errors
       set_samplerate set_bits set_state set_addr set_addr_start
       set_addr_bytes_remaining set_is_read set_errors final output fst snd].

Ltac fields_in H :=
  cbn [samplerate bits state addr addr_start addr_bytes_remaining is_read errors
       set_samplerate set_bits set_state set_addr set_addr_start
       set_addr_bytes_remaining set_is_read set_errors final output fst snd] in H.

Lemma run_addr_frames
  (options : Options) (unit : Q) (lr : option Z) (d : Decoder)
  (fs : list (Z * list (Z * Z))) :
  addr_bytes options = 2 \/ addr_bytes options = 3 ->
  state d = ST_ADDR_0 ->
  bits d = [] ->
  addr_bytes_remaining d = addr_bytes options ->
  Z.of_nat (List.length fs) = addr_bytes options ->
  forallb (byte_frame unit false) fs = true ->
  let r := decode_loop options unit lr (edges_of (List.concat (map snd fs))) d in
  final r
  = set_bits [] (set_state ST_RW_ID (set_addr_bytes_remaining 0
      (set_addr_start (frame_ss (snd (hd (0, []) fs)))
        (set_addr (addr_value (map fst fs)) (set_errors 0 d)))))
  /\ filter is_semantic (output r) = [addr_event options unit fs].
Proof.
  intros Hw Hs Hb Hr Hn Hf r. subst r.
  destruct Hw as [Hw | Hw]; rewrite Hw in Hn, Hr.
  - destruct fs as [| f1 [| f2 [| f3 fs]]]; cbn [List.length] in Hn; try lia.
    cbn [forallb] in Hf. split_bools.
    cbn [map List.concat hd]. rewrite app_nil_r, decode_loop_app. fields.
    rewrite !filter_app.
    destruct (run_addr_0_frame options unit f1 lr d Hb Hs ltac:(assumption)) as [F1 S1].
    rewrite Hr in F1, S1. change (0 <? 2 - 1) with true in F1, S1.
    cbv iota in F1, S1. rewrite F1, S1.
    match goal with
    | |- context [decode_loop options unit ?l (edges_of (snd f2)) ?d1] =>
        destruct (run_addr_n_frame options unit f2 l d1 eq_refl eq_refl
                    ltac:(assumption)) as [F2 S2]
    end.
    fields_in F2. fields_in S2.
    change (2 - 1 - 1 =? 0) with true in F2, S2. cbv iota in F2, S2.
    rewrite F2, S2. fields. unfold addr_event. cbn [hd last map snd fst].
    split; reflexivity.
  - destruct fs as [| f1 [| f2 [| f3 [| f4 fs]]]]; cbn [List.length] in Hn; try lia.
    cbn [forallb] in Hf. split_bools.
    cbn [map List.concat hd]. rewrite app_nil_r, !decode_loop_app. fields.
    rewrite !filter_app.
    destruct (run_addr_0_frame options unit f1 lr d Hb Hs ltac:(assumption)) as [F1 S1].
    rewrite Hr in F1, S1. change (0 <? 3 - 1) with true in F1, S1.
    cbv iota in F1, S1. rewrite F1, S1.
    match goal with
    | |- context [decode_loop options unit ?l (edges_of (snd f2)) ?d1] =>
        destruct (run_addr_n_frame options unit f2 l d1 eq_refl eq_refl
                    ltac:(assumption)) as [F2 S2]
    end.
    fields_in F2. fields_in S2.
    change (3 - 1 - 1 =? 0) with false in F2, S2. cbv iota in F2, S2.
    rewrite F2, S2.
    match goal with
    | |- context [decode_loop options unit ?l (edges_of (snd f3)) ?d2] =>
        destruct (run_addr_n_frame options unit f3 l d2 eq_refl eq_refl
                    ltac:(assumption)) as [F3 S3]
    end.
    fields_in F3. fields_in S3.
    change (3 - 1 - 1 - 1 =? 0) with true in F3, S3. cbv iota in F3, S3.
    rewrite F3, S3. fields. unfold addr_event. cbn [hd last map snd fst app].
    split; reflexivity.
Qed.

Lemma byte_frames_bytes (unit : Q) (fs : list (Z * list (Z * Z))) :
  forallb (byte_frame unit false) fs = true ->
  forallb is_byte (map fst fs) = true.
Proof.
  induction fs as [| f fs IH]; [reflexivity |].
  cbn [forallb map]. intros H. apply andb_prop in H. destruct H as [Hf Hfs].
  unfold byte_frame in Hf. apply andb_prop in Hf. destruct Hf as [Hb _].
  now rewrite Hb, IH.
Qed.

(** C5: after START, with address width [w] (2 or 3), the [w] master
    frames that carry the address bytes [b1..bw] make the decoder put
    exactly one address annotation and no other semantic annotation;
    it spans from the start sample of the first address byte to the end
    sample of the last one, carries the value folded most significant
    byte first, [((b1 << 8) | b2) ...], and is labelled with exactly
    [2 * w] hexadecimal digits after [0x].  Bytes [0x12, 0x34, 0x56]
    give [0x123456] at width 3 and bytes [0xAB, 0xCD] give [0xABCD] at
    width 2. *)
Theorem address_event_big_endian
  (options : Options) (unit : Q) (lr : option Z) (d : Decoder)
  (fs : list (Z * list (Z * Z)))
  (Hw : addr_bytes options = 2 \/ addr_bytes options = 3)
  (Hs : state d = ST_ADDR_0)
  (Hb : bits d = [])
  (Hr : addr_bytes_remaining d = addr_bytes options)
  (Hn : Z.of_nat (List.length fs) = addr_bytes options)
  (Hf : forallb (byte_frame unit false) fs = true) :
  let r := decode_loop options unit lr (edges_of (List.concat (map snd fs))) d in
  let value := addr_value (map fst fs) in
  let digits := Fmt.fmt_0wX (addr_bytes options * 2) value in
  filter is_semantic (output r)
  = [mkAnn (frame_ss (snd (hd (0, []) fs)))
           (frame_es unit (snd (last fs (0, []))))
           ANN_ADDR
           [("ADDR: " ++ ("0x" ++ digits))%string; ("0x" ++ digits)%string]]
  /\ String.length digits = Z.to_nat (2 * addr_bytes options)
  /\ addr (final r) = value
  /\ state (final r) = ST_RW_ID
  /\ addr_value [0x12; 0x34; 0x56] = 0x123456
  /\ Fmt.fmt_0wX (3 * 2) 0x123456 = "123456"
  /\ addr_value [0xAB; 0xCD] = 0xABCD
  /\ Fmt.fmt_0wX (2 * 2) 0xABCD = "ABCD".
Proof.
  intros r value digits.
  destruct (run_addr_frames options unit lr d fs Hw Hs Hb Hr Hn Hf) as [F S].
  fold r in F, S.
  split; [exact S |].
  split.
  - subst digits. rewrite <- Hn.
    replace (Z.to_nat (2 * Z.of_nat (List.length fs))) with (2 * List.length fs)%nat by lia.
    apply addr_format_length.
    + destruct Hw; lia.
    + subst value.
      pose proof (addr_value_bound (map fst fs) (byte_frames_bytes unit fs Hf)) as Hv.
      now rewrite length_map in Hv.
  - rewrite F. repeat split; reflexivity.
Qed.

Lemma address_event_big_endian_witness :
  let options := mkOptions 960000 2 in
  let u := unit_time options 48000000 in
  let d := mkDecoder (Some 48000000) [] ST_ADDR_0 0 0 2 false 0 in
  let fs := [(0xAB, pulses_at 600 (0 :: byte_bits 0xAB ++ [0]));
             (0xCD, pulses_at 1100 (0 :: byte_bits 0xCD ++ [0]))] in
  (addr_bytes options = 2 \/ addr_bytes options = 3)
  /\ forallb (byte_frame u false) fs = true
  /\ filter is_semantic
       (output (decode_loop options u (Some 590)
                  (edges_of (List.concat (map snd fs))) d))
     = [mkAnn 600 1550 ANN_ADDR ["ADDR: 0xABCD"; "0xABCD"]].
Proof.
  intros options u d fs.
  assert (Hw : addr_bytes options = 2 \/ addr_bytes options = 3) by (left; reflexivity).
  assert (Hf : forallb (byte_frame u false) fs = true) by (vm_compute; reflexivity).
  split; [exact Hw | split; [exact Hf |]].
  destruct (address_event_big_endian options u (Some 590) d fs Hw
              eq_refl eq_refl eq_refl eq_refl Hf) as [Hev _].
  rewrite Hev. vm_compute. reflexivity.
Defined.

(** ** The data phase *)

Lemma run_write_data
  (options : Options) (unit : Q) (fs : list (Z * list (Z * Z))) :
  forall (lr : option Z) (d : Decoder),
    bits d = [] ->
    state d = ST_DATA ->
    forallb (byte_frame unit false) fs = true ->
    let r := decode_loop options unit lr (edges_of (List.concat (map snd fs))) d in
    bits (final r) = []
    /\ state (final r) = ST_DATA
    /\ filter is_semantic (output r) = map (data_event unit false) fs.
Proof.
  induction fs as [| f fs IH]; intros lr d Hb Hs Hf r; subst r.
  - cbn. auto.
  - cbn [forallb] in Hf. apply andb_prop in Hf. destruct Hf as [Hf Hfs].
    cbn [map List.concat]. rewrite decode_loop_app. fields.
    rewrite filter_app.
    destruct (run_data_frame options unit f lr d Hb Hs Hf) as [F S].
    rewrite F, S.
    match goal with
    | |- context [decode_loop options unit ?l _ ?d1] =>
        destruct (IH l d1 eq_refl Hs Hfs) as (B' & S' & O')
    end.
    rewrite B', S', O'. cbn [map app]. auto.
Qed.

Lemma run_read_data
  (options : Options) (unit : Q) (fs : list (Z * list (Z * Z))) :
  forall (lr : option Z) (d : Decoder),
    bits d = [] ->
    state d = ST_READ_TRIG \/ state d = ST_READ_TRIG_OR_END ->
    forallb (byte_frame unit true) fs = true ->
    let r := decode_loop options unit lr (edges_of (List.concat (map snd fs))) d in
    bits (final r) = []
    /\ (fs <> [] -> state (final r) = ST_READ_TRIG_OR_END)
    /\ filter is_semantic (output r) = map (data_event unit true) fs.
Proof.
  induction fs as [| f fs IH]; intros lr d Hb Hs Hf r; subst r.
  - cbn. repeat split; [assumption | congruence].
  - cbn [forallb] in Hf. apply andb_prop in Hf. destruct Hf as [Hf Hfs].
    cbn [map List.concat]. rewrite decode_loop_app. fields.
    rewrite filter_app.
    destruct (run_slave_frame options unit f lr d Hb Hs Hf) as (F & S & _).
    rewrite F, S.
    match goal with
    | |- context [decode_loop options unit ?l _ ?d1] =>
        destruct (IH l d1 eq_refl (or_intror eq_refl) Hfs) as (B' & S' & O')
    end.
    rewrite B', O'. cbn [map app].
    split; [reflexivity |]. split; [| reflexivity].
    intros _. destruct fs as [| f' fs'].
    + reflexivity.
    + apply S'. discriminate.
Qed.

(** ** One complete transaction *)

Lemma run_transaction
  (options : Options) (unit : Q) (lr : option Z) (d : Decoder) (t : Transaction) :
  addr_bytes options = 2 \/ addr_bytes options = 3 ->
  state d = ST_IDLE ->
  bits d = [] ->
  well_formed options unit t = true ->
  (tx_is_read t = true -> tx_data t <> []) ->
  let r := decode_loop options unit lr (edges_of (tx_pulses t)) d in
  filter is_semantic (output r) = expected_events options unit t
  /\ state (final r) = ST_IDLE
  /\ bits (final r) = [].
Proof.
  intros Hw Hs Hb Hwf Hk r. subst r.
  unfold well_formed in Hwf. split_bools.
  match goal with H : (_ =? addr_bytes options) = true |- _ =>
    apply Z.eqb_eq in H; rename H into Hn end.
  unfold tx_pulses, expected_events.
  rewrite !decode_loop_app. fields. rewrite !filter_app.
  (* START *)
  destruct (run_start_frame options unit (tx_start t) lr d Hb
              ltac:(now rewrite Hs) ltac:(assumption)) as [F0 S0].
  rewrite Hs in S0. cbn [State_eqb state_index Z.eqb negb app] in S0.
  rewrite F0, S0.
  (* address *)
  match goal with
  | |- context [decode_loop options unit ?l
                  (edges_of (List.concat (map snd (tx_addr t)))) ?d1] =>
      destruct (run_addr_frames options unit l d1 (tx_addr t) Hw
                  eq_refl eq_refl eq_refl Hn ltac:(assumption)) as [F1 S1]
  end.
  rewrite F1, S1.
  (* direction *)
  match goal with
  | |- context [decode_loop options unit ?l (edges_of (snd (tx_rw t))) ?d2] =>
      destruct (run_rw_frame options unit (tx_rw t) l d2 eq_refl eq_refl
                  ltac:(assumption)) as [F2 S2]
  end.
  rewrite F2, S2.
  unfold tx_is_read in *.
  destruct (Z.testbit (fst (tx_rw t)) 7) eqn:Hrd.
  - (* read *)
    match goal with
    | |- context [decode_loop options unit ?l
                    (edges_of (List.concat (map snd (tx_data t)))) ?d3] =>
        destruct (run_read_data options unit (tx_data t) l d3 eq_refl
                    (or_introl eq_refl) ltac:(assumption)) as (B3 & T3 & S3)
    end.
    rewrite S3.
    match goal with
    | |- context [decode_loop options unit ?l (edges_of (tx_end t)) ?d4] =>
        destruct (run_end_frame options unit (tx_end t) l d4 B3
                    (or_intror (T3 (Hk eq_refl))) ltac:(assumption)) as [F4 S4]
    end.
    rewrite F4, S4. repeat split.
  - (* write *)
    match goal with
    | |- context [decode_loop options unit ?l
                    (edges_of (List.concat (map snd (tx_data t)))) ?d3] =>
        destruct (run_write_data options unit (tx_data t) l d3 eq_refl
                    eq_refl ltac:(assumption)) as (B3 & T3 & S3)
    end.
    rewrite S3.
    match goal with
    | |- context [decode_loop options unit ?l (edges_of (tx_end t)) ?d4] =>
        destruct (run_end_frame options unit (tx_end t) l d4 B3
                    (or_introl (f_equal master_state T3)) ltac:(assumption)) as [F4 S4]
    end.
    rewrite F4, S4. repeat split.
Qed.






(** ** Read transactions *)

Lemma decode_loop_one
  (options : Options) (unit : Q) (lr : option Z) (fall rise : Z) (d : Decoder) :
  gap_detected unit lr fall d = false ->
  decode_loop options unit lr [fall; rise] d = process_pulse options unit fall rise d.
Proof.
  intros Hg. rewrite decode_loop_pulse.
  rewrite (frame_gap_quiet _ _ _ _ Hg). cbn [final output fst snd decode_loop ret app].
  rewrite app_nil_r. symmetry. apply run_eta.
Qed.

(** Eight valid slave bits met in read-data state with an empty buffer. *)
Lemma slave_byte_run
  (options : Options) (unit : Q) (ps : list (Z * Z)) (l : Z) (d : Decoder) :
  state d = ST_READ_DATA ->
  bits d = [] ->
  errors d = 0 ->
  List.length ps = 8%nat ->
  forallb (valid unit) ps = true ->
  gaps_ok_from unit l ps = true ->
  let byte_val := bits_value (map (pulse_value unit) ps) in
  let ss := fst (nth 0 ps no_pulse) in
  let es := bit_end_of unit (fst (nth 7 ps no_pulse)) in
  decode_loop options unit (Some l) (edges_of ps) d
  = (tt, set_state ST_SLAVE_END d,
     map (bit_ann unit ANN_BIT) ps
     ++ [mkAnn ss es ANN_BYTE [hex_byte byte_val];
         mkAnn ss es ANN_DATA_S [hex_byte byte_val]]).
Proof.
  intros Hs Hb He Hl Hv Hg byte_val ss es. subst byte_val ss es.
  destruct ps as [| p0 [| p1 [| p2 [| p3 [| p4 [| p5 [| p6 [| p7 [| ? ?]]]]]]]]];
    try discriminate Hl.
  cbn in Hv, Hg. split_bools.
  change (edges_of [p0; p1; p2; p3; p4; p5; p6; p7])
    with (edges_of ([p0; p1; p2; p3; p4; p5; p6] ++ [p7])).
  rewrite decode_loop_app. fields.
  rewrite (slave_bits_run options unit); try assumption;
    [ | rewrite Hb; cbn; lia | use_bools | use_bools ].
  fields. cbn [last_rise_after last_rise_from]. rewrite Hb.
  change (edges_of [p7]) with [fst p7; snd p7].
  rewrite decode_loop_one by (apply gap_quiet_close; assumption).
  rewrite (process_read_data_last options unit _ _ _
             (valid_class unit p7 ltac:(assumption))) by (assumption || reflexivity).
  destruct d as [sr bs st a a0 rem ir e]. cbn in Hs, Hb, He. subst.
  reflexivity.
Qed.

(** C6 (amended): an RW/ID byte with bit 7 set puts the decoder in
    read-trigger state.  There the next valid pulse puts a Trigger
    annotation whatever its bit value and the decoder enters read-data
    state; eight valid slave bits put their bit annotations and exactly
    one slave byte (value most significant bit first, from the first
    bit's start to the eighth bit's end) and the decoder enters
    slave-end state; the next valid pulse is consumed without any
    annotation; then a pulse with bit 0 puts another Trigger and
    returns to read-data state, while a pulse with bit 1 is the CMD bit
    of a 9-bit master frame.  That frame gives an End annotation when
    its value is 0xFF, an unexpected-START error followed by START and
    first-address-byte state when its value is 0x5A, and an
    invalid-command error for any other value. *)
Theorem read_transaction_alternation (options : Options) (unit : Q) :
  (forall (f : Z * list (Z * Z)) (lr : option Z) (d : Decoder),
      bits d = [] -> state d = ST_RW_ID ->
      byte_frame unit false f = true -> Z.testbit (fst f) 7 = true ->
      let r := decode_loop options unit lr (edges_of (snd f)) d in
      state (final r) = ST_READ_TRIG /\ is_read (final r) = true
      /\ bits (final r) = [])
  /\ (forall (lr : option Z) (fall rise bit : Z) (d : Decoder),
         state d = ST_READ_TRIG -> bits d = [] ->
         classify unit (rise - fall) = BitValue bit ->
         decode_loop options unit lr [fall; rise] d
         = (tt, set_state ST_READ_DATA (set_errors 0 d),
            [mkAnn fall rise ANN_TRIG ["Trigger"; "T"; ">"]]))
  /\ (forall (ps : list (Z * Z)) (l : Z) (d : Decoder),
         state d = ST_READ_DATA -> bits d = [] -> errors d = 0 ->
         List.length ps = 8%nat ->
         forallb (valid unit) ps = true ->
         gaps_ok_from unit l ps = true ->
         let byte_val := bits_value (map (pulse_value unit) ps) in
         let ss := fst (nth 0 ps no_pulse) in
         let es := bit_end_of unit (fst (nth 7 ps no_pulse)) in
         decode_loop options unit (Some l) (edges_of ps) d
         = (tt, set_state ST_SLAVE_END d,
            map (bit_ann unit ANN_BIT) ps
            ++ [mkAnn ss es ANN_BYTE [hex_byte byte_val];
                mkAnn ss es ANN_DATA_S [hex_byte byte_val]]))
  /\ (forall (l fall rise bit : Z) (d : Decoder),
         state d = ST_SLAVE_END ->
         classify unit (rise - fall) = BitValue bit ->
         Qle_bool (inject_Z (fall - l)) (max_bit_gap unit) = true ->
         decode_loop options unit (Some l) [fall; rise] d
         = (tt, set_state ST_READ_TRIG_OR_END (set_errors 0 d), []))
  /\ (forall (lr : option Z) (fall rise : Z) (d : Decoder),
         state d = ST_READ_TRIG_OR_END -> bits d = [] ->
         classify unit (rise - fall) = BitValue 0 ->
         decode_loop options unit lr [fall; rise] d
         = (tt, set_state ST_READ_DATA (set_errors 0 d),
            [mkAnn fall rise ANN_TRIG ["Trigger"; "T"; ">"]]))
  /\ (forall (lr : option Z) (fall rise : Z) (d : Decoder),
         state d = ST_READ_TRIG_OR_END -> bits d = [] ->
         classify unit (rise - fall) = BitValue 1 ->
         decode_loop options unit lr [fall; rise] d
         = (tt,
            set_state ST_DATA
              (set_bits [(1, fall, bit_end_of unit fall)] (set_errors 0 d)),
            [mkAnn fall (bit_end_of unit fall) ANN_CMD_BIT (bit_label 1)]))
  /\ (forall (v : Z) (ps : list (Z * Z)) (lr : option Z) (d : Decoder),
         state d = ST_READ_TRIG_OR_END -> bits d = [] ->
         master_frame unit 1 v ps = true -> is_byte v = true ->
         let r := decode_loop options unit lr (edges_of ps) d in
         (v = 0xFF ->
          filter is_semantic (output r) = [end_event unit ps]
          /\ state (final r) = ST_IDLE)
         /\ (v = 0x5A ->
             filter is_semantic (output r)
             = [mkAnn (frame_ss ps) (frame_es unit ps) ANN_ERROR
                      ["Unexpected START"; "RESYNC"];
                start_event unit ps]
             /\ state (final r) = ST_ADDR_0)
         /\ (v <> 0xFF -> v <> 0x5A ->
             filter is_semantic (output r)
             = [mkAnn (frame_ss ps) (frame_es unit ps) ANN_ERROR
                      [("Invalid CMD: " ++ hex_byte v)%string; "BAD CMD"]]
             /\ state (final r) = ST_IDLE)).
Proof.
  repeat apply conj.
  - intros f lr d Hb Hs Hf H7 r. subst r.
    destruct (run_rw_frame options unit f lr d Hb Hs Hf) as [F _].
    rewrite F, H7. repeat split.
  - intros lr fall rise bit d Hs Hb Hc.
    rewrite decode_loop_one.
    + exact (process_read_trig options unit fall rise bit Hc d Hs).
    + apply gap_quiet_out_of_frame. unfold in_frame. now rewrite Hb, Hs.
  - intros ps l d Hs Hb He Hl Hv Hg.
    exact (slave_byte_run options unit ps l d Hs Hb He Hl Hv Hg).
  - intros l fall rise bit d Hs Hc Hg.
    rewrite decode_loop_one by (apply gap_quiet_close; exact Hg).
    exact (process_slave_end options unit fall rise bit Hc d Hs).
  - intros lr fall rise d Hs Hb Hc.
    rewrite decode_loop_one.
    + now rewrite (process_trig_or_end options unit fall rise 0 Hc d Hs).
    + apply gap_quiet_out_of_frame. unfold in_frame. now rewrite Hb, Hs.
  - intros lr fall rise d Hs Hb Hc.
    rewrite decode_loop_one.
    + rewrite (process_trig_or_end options unit fall rise 1 Hc d Hs).
      cbn [Z.eqb Pos.eqb]. now rewrite Hb.
    + apply gap_quiet_out_of_frame. unfold in_frame. now rewrite Hb, Hs.
  - intros v ps lr d Hs Hb Hf Hv r. subst r.
    repeat apply conj.
    + intros ->.
      destruct (run_end_frame options unit ps lr d Hb (or_intror Hs) Hf) as [F S].
      rewrite F, S. split; reflexivity.
    + intros ->.
      destruct (run_restart_frame options unit ps lr d Hb Hs Hf) as [F S].
      rewrite F, S. split; reflexivity.
    + intros HFF H5A.
      destruct (run_command_frame options unit v ps lr d Hb (or_intror Hs) Hf Hv H5A HFF)
        as [F S].
      rewrite F, S. split; reflexivity.
Qed.

Lemma read_transaction_alternation_witness :
  let u := unit_time default_options 48000000 in
  let d := mkDecoder (Some 48000000) [] ST_READ_TRIG_OR_END 0 0 0 true 0 in
  let ps := pulses_at 3600 (1 :: byte_bits 0xFF ++ [0]) in
  master_frame u 1 0xFF ps = true
  /\ filter is_semantic (output (decode_loop default_options u (Some 3560) (edges_of ps) d))
     = [mkAnn 3600 4050 ANN_END ["END"; "E"]].
Proof.
  intros u d ps.
  assert (Hf : master_frame u 1 0xFF ps = true) by (vm_compute; reflexivity).
  split; [exact Hf |].
  destruct (read_transaction_alternation default_options u)
    as (_ & _ & _ & _ & _ & _ & Hend).
  destruct (Hend 0xFF ps (Some 3560) d eq_refl eq_refl Hf eq_refl) as (HFF & _ & _).
  destruct (HFF eq_refl) as [Hev _].
  rewrite Hev. vm_compute. reflexivity.
Defined.

(** C6 as stated fails when the master frame that follows a slave byte
    carries 0x5A: the decoder puts an unexpected-START error and a START
    annotation and waits for an address, it puts no invalid-command
    error. *)
Lemma read_end_start_counterexample :
  match decode default_options
          (edges_of (pulses_at 100
             ((1 :: byte_bits 0x5A ++ [0]) ++ (0 :: byte_bits 0x12 ++ [0])
              ++ (0 :: byte_bits 0x34 ++ [0]) ++ (0 :: byte_bits 0x56 ++ [0])
              ++ (0 :: byte_bits 0x85 ++ [0]) ++ (0 :: byte_bits 0xC3 ++ [0])
              ++ (1 :: byte_bits 0x5A ++ [0]))))
          (fresh_decoder 48000000) with
  | inr (d, out) =>
      filter is_semantic out
      = [mkAnn 100 550 ANN_START ["START"; "S"];
         mkAnn 600 2050 ANN_ADDR ["ADDR: 0x123456"; "0x123456"];
         mkAnn 2100 2550 ANN_RW ["R ID:5"; "R"];
         mkAnn 2650 3050 ANN_DATA_S ["0xC3"];
         mkAnn 3100 3550 ANN_ERROR ["Unexpected START"; "RESYNC"];
         mkAnn 3100 3550 ANN_START ["START"; "S"]]
      /\ state d = ST_ADDR_0
  | inl _ => False
  end.
Proof. vm_compute. split; reflexivity. Qed.

(** ** What a START leaves behind *)

Ltac same_view_done :=
  unfold same_view; fields;
  repeat split; try reflexivity; try discriminate; try assumption; try congruence.

Lemma same_view_refl (d : Decoder) : same_view d d.
Proof. same_view_done. Qed.

Lemma same_view_frame_gap (unit : Q) (lr : option Z) (fall : Z) (d1 d2 : Decoder) :
  same_view d1 d2 ->
  output (frame_gap unit lr fall d1) = output (frame_gap unit lr fall d2)
  /\ same_view (final (frame_gap unit lr fall d1)) (final (frame_gap unit lr fall d2)).
Proof.
  intros (Hb & Hs & Ha & Hr & He & Hst).
  assert (Hg : gap_detected unit lr fall d1 = gap_detected unit lr fall d2).
  { unfold gap_detected, in_frame. now rewrite Hb, Hs. }
  destruct (gap_detected unit lr fall d2) eqn:E.
  - rewrite (frame_gap_detected _ _ _ _ Hg), (frame_gap_detected _ _ _ _ E).
    split; [reflexivity | same_view_done].
  - rewrite (frame_gap_quiet _ _ _ _ Hg), (frame_gap_quiet _ _ _ _ E).
    split; [reflexivity | same_view_done].
Qed.

Lemma same_view_decode_byte (options : Options) (d1 d2 : Decoder) :
  same_view d1 d2 ->
  output (_decode_byte options d1) = output (_decode_byte options d2)
  /\ same_view (final (_decode_byte options d1)) (final (_decode_byte options d2)).
Proof.
  intros (Hb & Hs & Ha & Hr & He & Hst).
  destruct d1 as [sr1 bs1 st1 a1 as1 rem1 ir1 e1].
  destruct d2 as [sr2 bs2 st2 a2 as2 rem2 ir2 e2].
  cbn in Hb, Hs, Ha, Hr, He, Hst. subst bs2 st2 a2 rem2 e2.
  unfold _decode_byte, fold_byte, bit_at.
  destruct st1; try (specialize (Hst eq_refl); subst as2);
    crunch; split; try reflexivity; same_view_done.
Qed.

Lemma same_view_process_pulse
  (options : Options) (unit : Q) (fall rise : Z) (d1 d2 : Decoder) :
  same_view d1 d2 ->
  output (process_pulse options unit fall rise d1)
  = output (process_pulse options unit fall rise d2)
  /\ same_view (final (process_pulse options unit fall rise d1))
               (final (process_pulse options unit fall rise d2)).
Proof.
  intros Hv.
  destruct (classify unit (rise - fall)) as [| bit] eqn:Hc.
  - rewrite !(process_pulse_bad options unit fall rise _ Hc).
    destruct Hv as (Hb & Hs & Ha & Hr & He & Hst). rewrite He.
    destruct (max_errors <=? errors d2 + 1);
      (split; [reflexivity | same_view_done]).
  - assert (Hv0 : same_view (set_errors 0 d1) (set_errors 0 d2)).
    { destruct Hv as (Hb & Hs & Ha & Hr & He & Hst). same_view_done. }
    destruct Hv as (Hb & Hs & Ha & Hr & He & Hst).
    destruct (master_state (state d1)) eqn:Hm.
    + assert (Hm2 : master_state (state d2) = true) by now rewrite <- Hs.
      destruct (Nat.eq_dec (List.length (bits d1)) 9) as [H9 | H9].
      * rewrite (process_master_end_unit options unit fall rise bit Hc d1 Hm H9).
        rewrite (process_master_end_unit options unit fall rise bit Hc d2 Hm2)
          by now rewrite <- Hb.
        fields. now apply same_view_decode_byte.
      * rewrite (process_master_bit options unit fall rise bit Hc d1 Hm H9).
        rewrite (process_master_bit options unit fall rise bit Hc d2 Hm2)
          by now rewrite <- Hb.
        rewrite Hb. split; [reflexivity | same_view_done].
    + destruct (state d1) eqn:Hs1; try discriminate Hm; symmetry in Hs.
      * rewrite (process_read_trig options unit fall rise bit Hc d1 Hs1).
        rewrite (process_read_trig options unit fall rise bit Hc d2 Hs).
        split; [reflexivity | same_view_done].
      * destruct (Nat.eq_dec (List.length (bits d1)) 7) as [H7 | H7].
        -- rewrite (process_read_data_last options unit fall rise bit Hc d1 Hs1 H7).
           rewrite (process_read_data_last options unit fall rise bit Hc d2 Hs)
             by now rewrite <- Hb.
           unfold fold_byte, bit_at. fields. rewrite Hb.
           split; [reflexivity | same_view_done].
        -- rewrite (process_read_data options unit fall rise bit Hc d1 Hs1 H7).
           rewrite (process_read_data options unit fall rise bit Hc d2 Hs)
             by now rewrite <- Hb.
           rewrite Hb. split; [reflexivity | same_view_done].
      * rewrite (process_slave_end options unit fall rise bit Hc d1 Hs1).
        rewrite (process_slave_end options unit fall rise bit Hc d2 Hs).
        split; [reflexivity | same_view_done].
      * rewrite (process_trig_or_end options unit fall rise bit Hc d1 Hs1).
        rewrite (process_trig_or_end options unit fall rise bit Hc d2 Hs).
        rewrite Hb. destruct (bit =? 1); (split; [reflexivity | same_view_done]).
Qed.

Lemma same_view_decode_loop (options : Options) (unit : Q) (edges : list Z) :
  (forall lr d1 d2,
      same_view d1 d2 ->
      output (decode_loop options unit lr edges d1)
      = output (decode_loop options unit lr edges d2)
      /\ same_view (final (decode_loop options unit lr edges d1))
                   (final (decode_loop options unit lr edges d2)))
  /\ (forall x lr d1 d2,
         same_view d1 d2 ->
         output (decode_loop options unit lr (x :: edges) d1)
         = output (decode_loop options unit lr (x :: edges) d2)
         /\ same_view (final (decode_loop options unit lr (x :: edges) d1))
                      (final (decode_loop options unit lr (x :: edges) d2))).
Proof.
  induction edges as [| rise rest [IH1 IH2]].
  - split.
    + intros lr d1 d2 Hv. cbn. now split.
    + intros fall lr d1 d2 Hv. cbn [decode_loop].
      rewrite !final_bind, !output_bind. cbn [ret final output fst snd].
      rewrite !app_nil_r. now apply same_view_frame_gap.
  - split.
    + intros lr d1 d2 Hv. now apply IH2.
    + intros fall lr d1 d2 Hv. rewrite !decode_loop_pulse. fields.
      destruct (same_view_frame_gap unit lr fall d1 d2 Hv) as [Og Vg].
      destruct (same_view_process_pulse options unit fall rise _ _ Vg) as [Op Vp].
      destruct (IH1 (Some rise) _ _ Vp) as [Or Vr].
      rewrite Og, Op, Or. now split.
Qed.

(** C4: in every reachable state, when the pulse that completes a
    9-bit master byte finds it to be START (cmd 1, value 0x5A), the
    decoder first puts an unexpected-START error if it was not in Idle,
    then the byte and the START annotation; it is then in
    first-address-byte state with the address accumulator 0, the
    remaining address bytes at the configured width, and the bit buffer
    and the error counter cleared; and whatever edges follow, it puts
    exactly what a decoder does that never saw the abandoned
    transaction, so the old buffered bits, address and direction appear
    in no later annotation. *)
Theorem start_resets_transaction
  (options : Options) (unit : Q) (d : Decoder) (fall rise bit : Z)
  (Hr : reachable options unit d)
  (H9 : List.length (bits d) = 9%nat)
  (Hc : classify unit (rise - fall) = BitValue bit)
  (Hcmd : bit_value (bit_at d 0) = 1)
  (Hv : fold_byte d 1 = 0x5A) :
  let ss := bit_ss (bit_at d 0) in
  let es := bit_es (bit_at d 8) in
  let r := process_pulse options unit fall rise d in
  output r
  = (if negb (State_eqb (state d) ST_IDLE)
     then [mkAnn ss es ANN_ERROR ["Unexpected START"; "RESYNC"]] else [])
    ++ [mkAnn ss es ANN_BYTE [hex_byte 0x5A]; mkAnn ss es ANN_START ["START"; "S"]]
  /\ state (final r) = ST_ADDR_0
  /\ addr (final r) = 0
  /\ addr_bytes_remaining (final r) = addr_bytes options
  /\ bits (final r) = []
  /\ errors (final r) = 0
  /\ forall (lr : option Z) (edges : list Z),
      output (decode_loop options unit lr edges (final r))
      = output (decode_loop options unit lr edges (after_start options)).
Proof.
  intros ss es r. subst r.
  pose proof (reachable_full_buffer _ _ _ Hr H9) as Hm.
  rewrite (process_master_end_unit options unit fall rise bit Hc d Hm H9).
  assert (Hl : (9 <= List.length (bits (set_errors 0 d)))%nat) by (cbn; lia).
  rewrite (decode_start options (set_errors 0 d) Hl Hcmd Hv).
  fields. change (fold_byte (set_errors 0 d) 1) with (fold_byte d 1). rewrite Hv.
  repeat apply conj; try reflexivity.
  intros lr edges.
  apply (proj1 (same_view_decode_loop options unit edges)).
  unfold after_start. same_view_done.
Qed.

Lemma start_resets_transaction_witness :
  let u := unit_time default_options 48000000 in
  let d := final (decode_loop default_options u None
                    (edges_of (pulses_at 100
                       ((1 :: byte_bits 0x5A ++ [0]) ++ (0 :: byte_bits 0x12 ++ [0])
                        ++ (0 :: byte_bits 0x34 ++ [0]) ++ (0 :: byte_bits 0x56 ++ [0])
                        ++ (0 :: byte_bits 0x05 ++ [0]) ++ (0 :: byte_bits 0xAA ++ [0])
                        ++ (1 :: byte_bits 0x5A))))
                    (fresh_decoder 48000000)) in
  reachable default_options u d
  /\ List.length (bits d) = 9%nat
  /\ state d = ST_DATA
  /\ output (process_pulse default_options u 3550 3560 d)
     = [mkAnn 3100 3550 ANN_ERROR ["Unexpected START"; "RESYNC"];
        mkAnn 3100 3550 ANN_BYTE ["0x5A"];
        mkAnn 3100 3550 ANN_START ["START"; "S"]].
Proof.
  intros u d.
  assert (Hr : reachable default_options u d).
  { apply (proj1 (reachable_decode_loop default_options u _)).
    unfold fresh_decoder. apply reachable_init. }
  assert (H9 : List.length (bits d) = 9%nat) by (vm_compute; reflexivity).
  assert (Hc : classify u (3560 - 3550) = BitValue 0) by (vm_compute; reflexivity).
  assert (Hcmd : bit_value (bit_at d 0) = 1) by (vm_compute; reflexivity).
  assert (Hv : fold_byte d 1 = 0x5A) by (vm_compute; reflexivity).
  split; [exact Hr | split; [exact H9 | split; [vm_compute; reflexivity |]]].
  destruct (start_resets_transaction default_options u d 3550 3560 0 Hr H9 Hc Hcmd Hv)
    as [Hout _].
  rewrite Hout. vm_compute. reflexivity.
Defined.

(** * Further properties of the decoder *)

(** ** Fields the loop never writes *)

Lemma samplerate_decode_byte (options : Options) (d : Decoder) :
  samplerate (final (_decode_byte options d)) = samplerate d.
Proof. unfold _decode_byte. crunch; reflexivity. Qed.




(** ** Errors raised before the loop *)


(** ** Invariants of the loop *)

(** X2: between any two steps of a run the bit buffer holds at most
    nine bits, each with value 0 or 1; it holds fewer than eight in
    read-data state and none in read-trigger, slave-end and
    trigger-or-end state; and the error counter is 0, 1 or 2. *)
Theorem reachable_buffer_bounds (options : Options) (unit : Q) (d : Decoder)
  (Hr : reachable options unit d) :
  (List.length (bits d) <= 9)%nat
  /\ Forall (fun b => bit_value b = 0 \/ bit_value b = 1) (bits d)
  /\ (state d = ST_READ_DATA -> (List.length (bits d) < 8)%nat)
  /\ (state d = ST_READ_TRIG \/ state d = ST_SLAVE_END
      \/ state d = ST_READ_TRIG_OR_END -> bits d = [])
  /\ 0 <= errors d <= 2.
Proof.
  destruct (reachable_invariant _ _ _ Hr) as (Hb & He & Hf).
  unfold buffer_ok in Hb.
  split; [| split; [exact Hf | split; [| split; [| lia]]]].
  - destruct (state d); try lia; rewrite Hb; cbn; lia.
  - intros Hs. now rewrite Hs in Hb.
  - intros [Hs | [Hs | Hs]]; now rewrite Hs in Hb.
Qed.

Lemma reachable_buffer_bounds_witness :
  let u := unit_time default_options 48000000 in
  let d := final (decode_loop default_options u None
                    (edges_of (pulses_at 100 [1; 0; 1; 5; 0; 1]))
                    (fresh_decoder 48000000)) in
  reachable default_options u d /\ (List.length (bits d) <= 9)%nat.
Proof.
  intros u d.
  assert (Hr : reachable default_options u d).
  { apply (proj1 (reachable_decode_loop default_options u _)).
    unfold fresh_decoder. apply reachable_init. }
  split; [exact Hr |].
  exact (proj1 (reachable_buffer_bounds default_options u d Hr)).
Defined.

Ltac bool_hyps :=
  repeat match goal with
    | H : (_ <? _) = true |- _ => apply Z.ltb_lt in H
    | H : (_ <? _) = false |- _ => apply Z.ltb_ge in H
    | H : (_ =? _) = true |- _ => apply Z.eqb_eq in H
    | H : (_ =? _) = false |- _ => apply Z.eqb_neq in H
    end.

Lemma fields_ok_decode_byte (options : Options) (d : Decoder) :
  fields_ok options d -> fields_ok options (final (_decode_byte options d)).
Proof.
  intros (H1 & H2 & H3 & H4).
  destruct d as [sr bs st a a0 rem ir e].
  cbn [state is_read addr_bytes_remaining] in H1, H2, H3, H4.
  unfold _decode_byte.
  destruct st; crunch; unfold fields_ok; fields; bool_hyps;
    repeat split; intros; try discriminate; try reflexivity;
    try (apply H1; reflexivity); try (apply H2; reflexivity);
    try (specialize (H4 eq_refl); lia);
    try (specialize (H3 eq_refl); lia).
Qed.

Lemma fields_ok_resynced (options : Options) (d : Decoder) :
  fields_ok options (resynced d).
Proof. unfold fields_ok, resynced. fields. repeat split; intros; discriminate || reflexivity. Qed.

Lemma fields_ok_frame_gap
  (options : Options) (unit : Q) (lr : option Z) (fall : Z) (d : Decoder) :
  fields_ok options d -> fields_ok options (final (frame_gap unit lr fall d)).
Proof.
  intros Hf. destruct (gap_detected unit lr fall d) eqn:Hg.
  - rewrite (frame_gap_detected _ _ _ _ Hg). apply fields_ok_resynced.
  - now rewrite (frame_gap_quiet _ _ _ _ Hg).
Qed.

Lemma fields_ok_process_pulse
  (options : Options) (unit : Q) (fall rise : Z) (d : Decoder) :
  fields_ok options d ->
  fields_ok options (final (process_pulse options unit fall rise d)).
Proof.
  intros Hf.
  destruct (classify unit (rise - fall)) as [| bit] eqn:Hc.
  - rewrite (process_pulse_bad options unit fall rise d Hc). fields.
    destruct (max_errors <=? errors d + 1); [apply fields_ok_resynced | exact Hf].
  - destruct (master_state (state d)) eqn:Hm.
    + destruct (Nat.eq_dec (List.length (bits d)) 9) as [H9 | H9].
      * rewrite (process_master_end_unit options unit fall rise bit Hc d Hm H9).
        fields. apply fields_ok_decode_byte. exact Hf.
      * rewrite (process_master_bit options unit fall rise bit Hc d Hm H9). exact Hf.
    + destruct Hf as (H1 & H2 & H3 & H4). specialize (H2 Hm).
      destruct (state d) eqn:Hs; try discriminate Hm.
      * rewrite (process_read_trig options unit fall rise bit Hc d Hs).
        unfold fields_ok. fields.
        repeat split; intros; try discriminate; assumption.
      * destruct (Nat.eq_dec (List.length (bits d)) 7) as [H7 | H7].
        -- rewrite (process_read_data_last options unit fall rise bit Hc d Hs H7).
           unfold fields_ok. fields.
           repeat split; intros; try discriminate; assumption.
        -- rewrite (process_read_data options unit fall rise bit Hc d Hs H7).
           unfold fields_ok. fields. rewrite Hs.
           repeat split; intros; try discriminate; assumption.
      * rewrite (process_slave_end options unit fall rise bit Hc d Hs).
        unfold fields_ok. fields.
        repeat split; intros; try discriminate; assumption.
      * rewrite (process_trig_or_end options unit fall rise bit Hc d Hs).
        destruct (bit =? 1); unfold fields_ok; fields;
          repeat split; intros; try discriminate; assumption.
Qed.

(** X3: between any two steps of a run the direction flag is clear in
    Idle and set in the four read states, the remaining-bytes counter
    equals the configured width in first-address-byte state and is
    positive in remaining-address-bytes state. *)
Theorem reachable_direction_and_address
  (options : Options) (unit : Q) (d : Decoder)
  (Hr : reachable options unit d) :
  (state d = ST_IDLE -> is_read d = false)
  /\ (state d = ST_READ_TRIG \/ state d = ST_READ_DATA
      \/ state d = ST_SLAVE_END \/ state d = ST_READ_TRIG_OR_END ->
      is_read d = true)
  /\ (state d = ST_ADDR_0 -> addr_bytes_remaining d = addr_bytes options)
  /\ (state d = ST_ADDR_N -> 0 < addr_bytes_remaining d).
Proof.
  assert (Hf : fields_ok options d).
  { induction Hr.
    - unfold fields_ok. cbn. repeat split; intros; discriminate || reflexivity.
    - now apply fields_ok_frame_gap.
    - now apply fields_ok_process_pulse. }
  destruct Hf as (H1 & H2 & H3 & H4).
  repeat split; try assumption.
  intros [Hs | [Hs | [Hs | Hs]]]; apply H2; now rewrite Hs.
Qed.

Lemma reachable_direction_and_address_witness :
  let u := unit_time default_options 48000000 in
  let d := final (decode_loop default_options u None
                    (edges_of (pulses_at 100 (1 :: byte_bits 0x5A ++ [0])))
                    (fresh_decoder 48000000)) in
  reachable default_options u d
  /\ state d = ST_ADDR_0
  /\ addr_bytes_remaining d = addr_bytes default_options.
Proof.
  intros u d.
  assert (Hr : reachable default_options u d).
  { apply (proj1 (reachable_decode_loop default_options u _)).
    unfold fresh_decoder. apply reachable_init. }
  assert (Hs : state d = ST_ADDR_0) by (vm_compute; reflexivity).
  split; [exact Hr | split; [exact Hs |]].
  destruct (reachable_direction_and_address default_options u d Hr) as (_ & _ & H0 & _).
  exact (H0 Hs).
Defined.

(** ** Byte interpretation *)

Lemma lor_shiftl_bit (a b : Z) :
  0 <= a -> b = 0 \/ b = 1 -> Z.lor (Z.shiftl a 1) b = 2 * a + b.
Proof.
  intros Ha [-> | ->].
  - rewrite Z.lor_0_r, Z.shiftl_mul_pow2 by lia. change (2 ^ 1) with 2. lia.
  - destruct a as [| p | p]; [reflexivity | reflexivity | lia].
Qed.

Lemma fold_bits_range (d : Decoder) (off : nat) (l : list nat) :
  Forall is_bit (bits d) ->
  forall acc k,
    0 <= k -> 0 <= acc < 2 ^ k ->
    0 <= fold_left
           (fun byte_val i =>
              Z.lor (Z.shiftl byte_val 1) (bit_value (bit_at d (i + off))))
           l acc
      < 2 ^ (k + Z.of_nat (List.length l)).
Proof.
  intros Hf. induction l as [| i l IH]; intros acc k Hk Hacc.
  - cbn. now rewrite Z.add_0_r.
  - cbn [fold_left List.length].
    replace (k + Z.of_nat (S (List.length l)))
      with ((k + 1) + Z.of_nat (List.length l)) by lia.
    apply IH; [lia |].
    assert (Hb : is_bit (bit_at d (i + off))).
    { unfold bit_at. destruct (nth_in_or_default (i + off) (bits d) default_bit) as [Hin | ->].
      - rewrite Forall_forall in Hf. now apply Hf.
      - left. reflexivity. }
    rewrite lor_shiftl_bit by (lia || exact Hb).
    rewrite Z.pow_add_r by lia. change (2 ^ 1) with 2.
    destruct Hb as [-> | ->]; lia.
Qed.

Lemma hex_byte_length (v : Z) : 0 <= v < 256 -> String.length (hex_byte v) = 4%nat.
Proof.
  intros Hv. unfold hex_byte. rewrite string_length_append. cbn [String.length Nat.add].
  do 2 f_equal. unfold Fmt.fmt_0X.
  destruct (Z.ltb_spec v 0); [lia |].
  apply zero_pad_length. unfold Fmt.digits.
  pose proof (hex_digits_loop_length (S (Z.to_nat (Z.log2 v))) v EmptyString 2) as Hd.
  cbn [String.length] in Hd. rewrite Nat.add_0_r in Hd. apply Hd; [lia |].
  change (16 ^ Z.of_nat 2) with 256. exact Hv.
Qed.

(** X4: in every reachable state the value the decoder folds from
    eight buffered bits, from any offset, lies between 0 and 255, so
    every byte label it puts is [0x] followed by exactly two
    hexadecimal digits. *)
Theorem byte_values_in_range
  (options : Options) (unit : Q) (d : Decoder) (off : nat)
  (Hr : reachable options unit d) :
  0 <= fold_byte d off <= 255
  /\ String.length (hex_byte (fold_byte d off)) = 4%nat.
Proof.
  destruct (reachable_invariant _ _ _ Hr) as (_ & _ & Hf).
  assert (Hrange : 0 <= fold_byte d off < 256).
  { unfold fold_byte.
    pose proof (fold_bits_range d off (seq 0 8) Hf 0 0 ltac:(lia) ltac:(cbn; lia)) as H.
    cbn [List.length seq Z.of_nat] in H. exact H. }
  split; [lia |]. now apply hex_byte_length.
Qed.

Lemma byte_values_in_range_witness :
  let u := unit_time default_options 48000000 in
  let d := final (decode_loop default_options u None
                    (edges_of (pulses_at 100 [0; 1; 1; 0; 0; 0; 0; 1; 1]))
                    (fresh_decoder 48000000)) in
  reachable default_options u d /\ 0 <= fold_byte d 1 <= 255.
Proof.
  intros u d.
  assert (Hr : reachable default_options u d).
  { apply (proj1 (reachable_decode_loop default_options u _)).
    unfold fresh_decoder. apply reachable_init. }
  split; [exact Hr |].
  exact (proj1 (byte_values_in_range default_options u d 1 Hr)).
Defined.

(** X5: with fewer than nine buffered bits [_decode_byte] returns
    False, puts nothing and changes nothing; with nine or more it
    returns True, always leaves the buffer empty, never changes the
    sample rate, and puts exactly one byte annotation, which spans
    from the first bit's start to the ninth bit's end and carries the
    value of bits 1 to 8.  [_decode_slave_byte] does the same at eight
    bits, with the value of bits 0 to 7 and a slave data annotation. *)
Theorem decode_byte_contract (options : Options) (d : Decoder) :
  ((List.length (bits d) < 9)%nat -> _decode_byte options d = (false, d, []))
  /\ ((9 <= List.length (bits d))%nat ->
      let r := _decode_byte options d in
      result r = true
      /\ bits (final r) = []
      /\ samplerate (final r) = samplerate d
      /\ filter is_byte_ann (output r)
         = [mkAnn (bit_ss (bit_at d 0)) (bit_es (bit_at d 8)) ANN_BYTE
                  [hex_byte (fold_byte d 1)]])
  /\ ((List.length (bits d) < 8)%nat -> _decode_slave_byte d = (false, d, []))
  /\ ((8 <= List.length (bits d))%nat ->
      _decode_slave_byte d
      = (true, set_bits [] d,
         [mkAnn (bit_ss (bit_at d 0)) (bit_es (bit_at d 7)) ANN_BYTE
                [hex_byte (fold_byte d 0)];
          mkAnn (bit_ss (bit_at d 0)) (bit_es (bit_at d 7)) ANN_DATA_S
                [hex_byte (fold_byte d 0)]])).
Proof.
  repeat apply conj.
  - intros Hl. apply Nat.ltb_lt in Hl.
    unfold _decode_byte. unfold_monad. now rewrite Hl.
  - intros Hl r. subst r.
    split; [now apply decode_byte_result |].
    split; [now apply decode_byte_bits |].
    split; [apply samplerate_decode_byte |].
    apply Nat.ltb_ge in Hl.
    unfold _decode_byte. unfold_monad. rewrite Hl. crunch; reflexivity.
  - intros Hl. apply Nat.ltb_lt in Hl.
    unfold _decode_slave_byte. unfold_monad. now rewrite Hl.
  - intros Hl. apply Nat.ltb_ge in Hl.
    unfold _decode_slave_byte. unfold_monad. now rewrite Hl.
Qed.

(** ** Which annotations a pulse can put *)

Lemma decode_byte_may_put (options : Options) (d : Decoder) :
  master_state (state d) = true ->
  forallb (fun a => may_put (state d) (ann_idx a)) (output (_decode_byte options d)) = true
  /\ (List.length (output (_decode_byte options d)) <= 3)%nat.
Proof.
  intros Hm. destruct d as [sr bs st a a0 rem ir e]. cbn [state] in Hm |- *.
  unfold _decode_byte.
  destruct st; try discriminate Hm; crunch; split; try reflexivity; cbn; lia.
Qed.

(** X6: the class of every annotation a pulse puts is one its state
    allows: in Idle a pulse never puts an address, direction, data or
    trigger annotation; an address annotation needs one of the two
    address states, a direction annotation the RW/ID state, a master
    data annotation the data state, a slave data annotation the
    read-data state, a trigger one of the two trigger states, START and
    END a master state; the frame gap check only ever puts an error.
    No pulse puts more than three annotations. *)
Theorem annotations_follow_state
  (options : Options) (unit : Q) (lr : option Z) (fall rise : Z) (d : Decoder) :
  forallb (fun a => may_put (state d) (ann_idx a))
          (output (process_pulse options unit fall rise d)) = true
  /\ (List.length (output (process_pulse options unit fall rise d)) <= 3)%nat
  /\ forallb is_error (output (frame_gap unit lr fall d)) = true
  /\ (List.length (output (frame_gap unit lr fall d)) <= 1)%nat.
Proof.
  assert (Hp : forallb (fun a => may_put (state d) (ann_idx a))
                       (output (process_pulse options unit fall rise d)) = true
               /\ (List.length (output (process_pulse options unit fall rise d)) <= 3)%nat).
  { destruct (classify unit (rise - fall)) as [| bit] eqn:Hc.
    - rewrite (process_pulse_bad options unit fall rise d Hc).
      split; [reflexivity | cbn; lia].
    - destruct (master_state (state d)) eqn:Hm.
      + destruct (Nat.eq_dec (List.length (bits d)) 9) as [H9 | H9].
        * rewrite (process_master_end_unit options unit fall rise bit Hc d Hm H9).
          fields. apply (decode_byte_may_put options (set_errors 0 d)). exact Hm.
        * rewrite (process_master_bit options unit fall rise bit Hc d Hm H9).
          fields. split; [| cbn; lia].
          destruct (List.length (bits d) =? 0)%nat;
            cbn [forallb ann_idx may_put]; now rewrite Hm.
      + destruct (state d) eqn:Hs; try discriminate Hm.
        * rewrite (process_read_trig options unit fall rise bit Hc d Hs).
          split; [reflexivity | cbn; lia].
        * destruct (Nat.eq_dec (List.length (bits d)) 7) as [H7 | H7].
          -- rewrite (process_read_data_last options unit fall rise bit Hc d Hs H7).
             split; [reflexivity | cbn; lia].
          -- rewrite (process_read_data options unit fall rise bit Hc d Hs H7).
             split; [reflexivity | cbn; lia].
        * rewrite (process_slave_end options unit fall rise bit Hc d Hs).
          split; [reflexivity | cbn; lia].
        * rewrite (process_trig_or_end options unit fall rise bit Hc d Hs).
          destruct (bit =? 1); (split; [reflexivity | cbn; lia]). }
  destruct Hp as [Hp1 Hp2].
  split; [exact Hp1 | split; [exact Hp2 |]].
  destruct (gap_detected unit lr fall d) eqn:Hg.
  - rewrite (frame_gap_detected _ _ _ _ Hg). split; [reflexivity | cbn; lia].
  - rewrite (frame_gap_quiet _ _ _ _ Hg). split; [reflexivity | cbn; lia].
Qed.

Lemma output_frame_gap_length (unit : Q) (lr : option Z) (fall : Z) (d : Decoder) :
  (List.length (output (frame_gap unit lr fall d)) <= 1)%nat.
Proof.
  destruct (gap_detected unit lr fall d) eqn:Hg.
  - rewrite (frame_gap_detected _ _ _ _ Hg). cbn; lia.
  - rewrite (frame_gap_quiet _ _ _ _ Hg). cbn; lia.
Qed.

Lemma output_process_pulse_length
  (options : Options) (unit : Q) (fall rise : Z) (d : Decoder) :
  (List.length (output (process_pulse options unit fall rise d)) <= 3)%nat.
Proof.
  destruct (classify unit (rise - fall)) as [| bit] eqn:Hc.
  - rewrite (process_pulse_bad options unit fall rise d Hc). cbn; lia.
  - destruct (master_state (state d)) eqn:Hm.
    + destruct (Nat.eq_dec (List.length (bits d)) 9) as [H9 | H9].
      * rewrite (process_master_end_unit options unit fall rise bit Hc d Hm H9).
        fields. apply (decode_byte_may_put options (set_errors 0 d)). exact Hm.
      * rewrite (process_master_bit options unit fall rise bit Hc d Hm H9). cbn; lia.
    + destruct (state d) eqn:Hs; try discriminate Hm.
      * rewrite (process_read_trig options unit fall rise bit Hc d Hs). cbn; lia.
      * destruct (Nat.eq_dec (List.length (bits d)) 7) as [H7 | H7].
        -- rewrite (process_read_data_last options unit fall rise bit Hc d Hs H7). cbn; lia.
        -- rewrite (process_read_data options unit fall rise bit Hc d Hs H7). cbn; lia.
      * rewrite (process_slave_end options unit fall rise bit Hc d Hs). cbn; lia.
      * rewrite (process_trig_or_end options unit fall rise bit Hc d Hs).
        destruct (bit =? 1); cbn; lia.
Qed.

Lemma output_decode_loop_length (options : Options) (unit : Q) (edges : list Z) :
  (forall lr d,
      (List.length (output (decode_loop options unit lr edges d))
       <= 2 * List.length edges)%nat)
  /\ (forall x lr d,
         (List.length (output (decode_loop options unit lr (x :: edges) d))
          <= 2 * List.length (x :: edges))%nat).
Proof.
  induction edges as [| rise rest [IH1 IH2]].
  - split; [intros; cbn; lia |].
    intros x lr d. cbn [decode_loop]. rewrite output_bind.
    cbn [ret output fst snd]. rewrite app_nil_r.
    pose proof (output_frame_gap_length unit lr x d). cbn [List.length]. lia.
  - split; [intros lr d; apply IH2 |].
    intros fall lr d. rewrite decode_loop_pulse. fields.
    rewrite !length_app.
    pose proof (output_frame_gap_length unit lr fall d).
    pose proof (output_process_pulse_length options unit fall rise
                  (final (frame_gap unit lr fall d))).
    match goal with
    | |- context [decode_loop options unit ?l rest ?d1] =>
        pose proof (IH1 l d1)
    end.
    cbn [List.length]. lia.
Qed.

(** X7: a run puts at most four annotations per pulse, that is at most
    two per edge; with no edges it puts none and leaves the decoder as
    it was, and a falling edge that is not followed by a rising edge
    can add a frame gap error only. *)
Theorem output_bounded
  (options : Options) (unit : Q) (lr : option Z) (edges : list Z) (d : Decoder) :
  (List.length (output (decode_loop options unit lr edges d))
   <= 2 * List.length edges)%nat
  /\ decode_loop options unit lr [] d = (tt, d, [])
  /\ (forall fall,
         decode_loop options unit lr [fall] d = frame_gap unit lr fall d
         /\ forallb is_error (output (decode_loop options unit lr [fall] d)) = true).
Proof.
  split; [apply (proj1 (output_decode_loop_length options unit edges)) |].
  split; [reflexivity |].
  intros fall.
  assert (H : decode_loop options unit lr [fall] d = frame_gap unit lr fall d).
  { cbn [decode_loop]. unfold bind.
    destruct (frame_gap unit lr fall d) as [[[] d1] o1]. cbn [ret].
    now rewrite app_nil_r. }
  split; [exact H |]. rewrite H.
  destruct (gap_detected unit lr fall d) eqn:Hg.
  - now rewrite (frame_gap_detected _ _ _ _ Hg).
  - now rewrite (frame_gap_quiet _ _ _ _ Hg).
Qed.

(** ** Resynchronisation forgets the past *)

Ltac same_future_done :=
  unfold same_future; fields;
  repeat match goal with |- _ /\ _ => split end;
  try assumption; try reflexivity;
  intros; try reflexivity; try discriminate; try congruence;
  try (match goal with H : _ \/ _ |- _ => destruct H; discriminate || congruence end);
  auto.

Lemma same_future_frame_gap (unit : Q) (lr : option Z) (fall : Z) (d1 d2 : Decoder) :
  same_future d1 d2 ->
  output (frame_gap unit lr fall d1) = output (frame_gap unit lr fall d2)
  /\ same_future (final (frame_gap unit lr fall d1)) (final (frame_gap unit lr fall d2)).
Proof.
  intros (Hb & Hs & He & Hr & Ha).
  assert (Hg : gap_detected unit lr fall d1 = gap_detected unit lr fall d2).
  { unfold gap_detected, in_frame. now rewrite Hb, Hs. }
  destruct (gap_detected unit lr fall d2) eqn:E.
  - rewrite (frame_gap_detected _ _ _ _ Hg), (frame_gap_detected _ _ _ _ E).
    split; [reflexivity | same_future_done].
  - rewrite (frame_gap_quiet _ _ _ _ Hg), (frame_gap_quiet _ _ _ _ E).
    split; [reflexivity | same_future_done].
Qed.

Lemma same_future_decode_byte (options : Options) (d1 d2 : Decoder) :
  same_future d1 d2 ->
  output (_decode_byte options d1) = output (_decode_byte options d2)
  /\ same_future (final (_decode_byte options d1)) (final (_decode_byte options d2)).
Proof.
  intros (Hb & Hs & He & Hr & Ha).
  destruct d1 as [sr1 bs1 st1 a1 as1 rem1 ir1 e1].
  destruct d2 as [sr2 bs2 st2 a2 as2 rem2 ir2 e2].
  cbn in Hb, Hs, He, Hr, Ha. subst bs2 st2 e2.
  unfold _decode_byte, fold_byte, bit_at.
  destruct st1;
    try (specialize (Hr (or_introl eq_refl)); subst rem2);
    try (specialize (Hr (or_intror eq_refl)); subst rem2);
    try (destruct (Ha eq_refl) as [Ha1 Ha2]; subst a2 as2);
    crunch; split; try reflexivity; same_future_done.
Qed.

Lemma same_future_process_pulse
  (options : Options) (unit : Q) (fall rise : Z) (d1 d2 : Decoder) :
  same_future d1 d2 ->
  output (process_pulse options unit fall rise d1)
  = output (process_pulse options unit fall rise d2)
  /\ same_future (final (process_pulse options unit fall rise d1))
                 (final (process_pulse options unit fall rise d2)).
Proof.
  intros Hv.
  destruct (classify unit (rise - fall)) as [| bit] eqn:Hc.
  - rewrite !(process_pulse_bad options unit fall rise _ Hc).
    destruct Hv as (Hb & Hs & He & Hr & Ha). rewrite He.
    destruct (max_errors <=? errors d2 + 1);
      (split; [reflexivity | same_future_done]).
  - assert (Hv0 : same_future (set_errors 0 d1) (set_errors 0 d2)).
    { destruct Hv as (Hb & Hs & He & Hr & Ha). same_future_done. }
    destruct Hv as (Hb & Hs & He & Hr & Ha).
    destruct (master_state (state d1)) eqn:Hm.
    + assert (Hm2 : master_state (state d2) = true) by now rewrite <- Hs.
      destruct (Nat.eq_dec (List.length (bits d1)) 9) as [H9 | H9].
      * rewrite (process_master_end_unit options unit fall rise bit Hc d1 Hm H9).
        rewrite (process_master_end_unit options unit fall rise bit Hc d2 Hm2)
          by now rewrite <- Hb.
        fields. now apply same_future_decode_byte.
      * rewrite (process_master_bit options unit fall rise bit Hc d1 Hm H9).
        rewrite (process_master_bit options unit fall rise bit Hc d2 Hm2)
          by now rewrite <- Hb.
        rewrite Hb. split; [reflexivity | same_future_done].
    + destruct (state d1) eqn:Hs1; try discriminate Hm; symmetry in Hs.
      * rewrite (process_read_trig options unit fall rise bit Hc d1 Hs1).
        rewrite (process_read_trig options unit fall rise bit Hc d2 Hs).
        split; [reflexivity | same_future_done].
      * destruct (Nat.eq_dec (List.length (bits d1)) 7) as [H7 | H7].
        -- rewrite (process_read_data_last options unit fall rise bit Hc d1 Hs1 H7).
           rewrite (process_read_data_last options unit fall rise bit Hc d2 Hs)
             by now rewrite <- Hb.
           unfold fold_byte, bit_at. fields. rewrite Hb.
           split; [reflexivity | same_future_done].
        -- rewrite (process_read_data options unit fall rise bit Hc d1 Hs1 H7).
           rewrite (process_read_data options unit fall rise bit Hc d2 Hs)
             by now rewrite <- Hb.
           rewrite Hb. split; [reflexivity | same_future_done].
      * rewrite (process_slave_end options unit fall rise bit Hc d1 Hs1).
        rewrite (process_slave_end options unit fall rise bit Hc d2 Hs).
        split; [reflexivity | same_future_done].
      * rewrite (process_trig_or_end options unit fall rise bit Hc d1 Hs1).
        rewrite (process_trig_or_end options unit fall rise bit Hc d2 Hs).
        rewrite Hb. destruct (bit =? 1); (split; [reflexivity | same_future_done]).
Qed.

Lemma same_future_decode_loop (options : Options) (unit : Q) (edges : list Z) :
  (forall lr d1 d2,
      same_future d1 d2 ->
      output (decode_loop options unit lr edges d1)
      = output (decode_loop options unit lr edges d2)
      /\ same_future (final (decode_loop options unit lr edges d1))
                     (final (decode_loop options unit lr edges d2)))
  /\ (forall x lr d1 d2,
         same_future d1 d2 ->
         output (decode_loop options unit lr (x :: edges) d1)
         = output (decode_loop options unit lr (x :: edges) d2)
         /\ same_future (final (decode_loop options unit lr (x :: edges) d1))
                        (final (decode_loop options unit lr (x :: edges) d2))).
Proof.
  induction edges as [| rise rest [IH1 IH2]].
  - split.
    + intros lr d1 d2 Hv. cbn. now split.
    + intros fall lr d1 d2 Hv. cbn [decode_loop].
      rewrite !final_bind, !output_bind. cbn [ret final output fst snd].
      rewrite !app_nil_r. now apply same_future_frame_gap.
  - split.
    + intros lr d1 d2 Hv. now apply IH2.
    + intros fall lr d1 d2 Hv. rewrite !decode_loop_pulse. fields.
      destruct (same_future_frame_gap unit lr fall d1 d2 Hv) as [Og Vg].
      destruct (same_future_process_pulse options unit fall rise _ _ Vg) as [Op Vp].
      destruct (IH1 (Some rise) _ _ Vp) as [Or Vr].
      rewrite Og, Op, Or. now split.
Qed.

(** X8: a decoder in Idle with an empty buffer and a zero error
    counter puts, whatever edges follow, exactly what a freshly
    constructed decoder puts: the address, its start sample, the
    remaining-bytes counter and the direction left over from earlier
    transactions never show.  This is the state after [_resync], so
    after the third consecutive timing error the next pulses are
    decoded as by a new decoder, and it is the state after END. *)
Theorem idle_as_fresh
  (options : Options) (unit : Q) (d d0 : Decoder)
  (Hs : state d = ST_IDLE) (Hb : bits d = []) (He : errors d = 0) :
  (forall lr edges,
      output (decode_loop options unit lr edges d)
      = output (decode_loop options unit lr edges (init d0)))
  /\ (forall d' lr edges,
         output (decode_loop options unit lr edges (resynced d'))
         = output (decode_loop options unit lr edges (init d0)))
  /\ (forall d' fall rise lr edges,
         errors d' = 2 ->
         classify unit (rise - fall) = BadTiming ->
         output (decode_loop options unit lr edges
                   (final (process_pulse options unit fall rise d')))
         = output (decode_loop options unit lr edges (init d0)))
  /\ (forall d' lr edges,
         (9 <= List.length (bits d'))%nat -> errors d' = 0 ->
         bit_value (bit_at d' 0) = 1 -> fold_byte d' 1 = 0xFF ->
         output (decode_loop options unit lr edges (final (_decode_byte options d')))
         = output (decode_loop options unit lr edges (init d0))).
Proof.
  repeat apply conj.
  - intros lr edges.
    apply (proj1 (same_future_decode_loop options unit edges)).
    unfold same_future. rewrite Hs, Hb, He. cbn.
    repeat split; intros; try discriminate.
    match goal with H : _ \/ _ |- _ => destruct H; discriminate end.
  - intros d' lr edges.
    apply (proj1 (same_future_decode_loop options unit edges)).
    same_future_done.
  - intros d' fall rise lr edges He' Hc.
    rewrite (process_pulse_bad options unit fall rise d' Hc), He'.
    cbn [final fst snd Z.add Pos.add Z.leb Z.compare Pos.compare Pos.compare_cont
         max_errors Pos.succ].
    apply (proj1 (same_future_decode_loop options unit edges)).
    same_future_done.
  - intros d' lr edges Hl He' Hc Hv.
    rewrite (decode_end options d' Hl Hc Hv). fields.
    apply (proj1 (same_future_decode_loop options unit edges)).
    unfold same_future. fields. rewrite He'.
    repeat split; intros; try discriminate.
    match goal with H : _ \/ _ |- _ => destruct H; discriminate end.
Qed.

Lemma idle_as_fresh_witness :
  let u := unit_time default_options 48000000 in
  let d := mkDecoder (Some 48000000) [] ST_IDLE 0x123456 600 0 false 0 in
  state d = ST_IDLE /\ bits d = [] /\ errors d = 0
  /\ output (decode_loop default_options u (Some 4060)
               (edges_of (pulses_at 5000 (1 :: byte_bits 0x5A ++ [0]))) d)
     = output (decode_loop default_options u (Some 4060)
                 (edges_of (pulses_at 5000 (1 :: byte_bits 0x5A ++ [0])))
                 (init d)).
Proof.
  intros u d.
  split; [reflexivity | split; [reflexivity | split; [reflexivity |]]].
  destruct (idle_as_fresh default_options u d d eq_refl eq_refl eq_refl) as [H _].
  apply H.
Defined.

(** ** Transactions after transactions, aborts and stalls *)

Lemma run_transaction_from
  (options : Options) (unit : Q) (lr : option Z) (d : Decoder) (t : Transaction) :
  addr_bytes options = 2 \/ addr_bytes options = 3 ->
  master_state (state d) = true ->
  bits d = [] ->
  well_formed options unit t = true ->
  (tx_is_read t = true -> tx_data t <> []) ->
  let r := decode_loop options unit lr (edges_of (tx_pulses t)) d in
  filter is_semantic (output r)
  = (if negb (State_eqb (state d) ST_IDLE)
     then [mkAnn (frame_ss (tx_start t)) (frame_es unit (tx_start t)) ANN_ERROR
                 ["Unexpected START"; "RESYNC"]]
     else [])
    ++ expected_events options unit t
  /\ state (final r) = ST_IDLE
  /\ bits (final r) = []
  /\ errors (final r) = 0.
Proof.
  intros Hw Hm Hb Hwf Hk r. subst r.
  unfold well_formed in Hwf. split_bools.
  match goal with H : (_ =? addr_bytes options) = true |- _ =>
    apply Z.eqb_eq in H; rename H into Hn end.
  unfold tx_pulses, expected_events.
  rewrite !decode_loop_app. fields. rewrite !filter_app.
  destruct (run_start_frame options unit (tx_start t) lr d Hb Hm
              ltac:(assumption)) as [F0 S0].
  rewrite F0, S0.
  match goal with
  | |- context [decode_loop options unit ?l
                  (edges_of (List.concat (map snd (tx_addr t)))) ?d1] =>
      destruct (run_addr_frames options unit l d1 (tx_addr t) Hw
                  eq_refl eq_refl eq_refl Hn ltac:(assumption)) as [F1 S1]
  end.
  rewrite F1, S1.
  match goal with
  | |- context [decode_loop options unit ?l (edges_of (snd (tx_rw t))) ?d2] =>
      destruct (run_rw_frame options unit (tx_rw t) l d2 eq_refl eq_refl
                  ltac:(assumption)) as [F2 S2]
  end.
  rewrite F2, S2.
  unfold tx_is_read in *.
  destruct (Z.testbit (fst (tx_rw t)) 7) eqn:Hrd.
  - match goal with
    | |- context [decode_loop options unit ?l
                    (edges_of (List.concat (map snd (tx_data t)))) ?d3] =>
        destruct (run_read_data options unit (tx_data t) l d3 eq_refl
                    (or_introl eq_refl) ltac:(assumption)) as (B3 & T3 & S3)
    end.
    rewrite S3.
    match goal with
    | |- context [decode_loop options unit ?l (edges_of (tx_end t)) ?d4] =>
        destruct (run_end_frame options unit (tx_end t) l d4 B3
                    (or_intror (T3 (Hk eq_refl))) ltac:(assumption)) as [F4 S4]
    end.
    rewrite F4, S4. rewrite <- !app_assoc. repeat split.
  - match goal with
    | |- context [decode_loop options unit ?l
                    (edges_of (List.concat (map snd (tx_data t)))) ?d3] =>
        destruct (run_write_data options unit (tx_data t) l d3 eq_refl
                    eq_refl ltac:(assumption)) as (B3 & T3 & S3)
    end.
    rewrite S3.
    match goal with
    | |- context [decode_loop options unit ?l (edges_of (tx_end t)) ?d4] =>
        destruct (run_end_frame options unit (tx_end t) l d4 B3
                    (or_introl (f_equal master_state T3)) ltac:(assumption)) as [F4 S4]
    end.
    rewrite F4, S4. rewrite <- !app_assoc. repeat split.
Qed.

Lemma decodable_parts (options : Options) (unit : Q) (t : Transaction) :
  decodable options unit t = true ->
  well_formed options unit t = true /\ (tx_is_read t = true -> tx_data t <> []).
Proof.
  unfold decodable. intros H. apply andb_prop in H. destruct H as [Hw Hk].
  split; [exact Hw |]. intros Hr. rewrite Hr in Hk. cbn in Hk.
  destruct (tx_data t); [discriminate Hk | discriminate].
Qed.




(** X10: a complete transaction that arrives while another one is open
    between two of its bytes (any master state, empty buffer) is
    decoded in full: the decoder puts one unexpected-START error at its
    START frame, none if it was in Idle, then exactly the annotations
    of the new transaction, and ends in Idle with the error counter at
    0. *)
Theorem transaction_after_abort
  (options : Options) (unit : Q) (lr : option Z) (d : Decoder) (t : Transaction)
  (Hw : addr_bytes options = 2 \/ addr_bytes options = 3)
  (Hm : master_state (state d) = true)
  (Hb : bits d = [])
  (Ht : decodable options unit t = true) :
  let r := decode_loop options unit lr (edges_of (tx_pulses t)) d in
  filter is_semantic (output r)
  = (if negb (State_eqb (state d) ST_IDLE)
     then [mkAnn (frame_ss (tx_start t)) (frame_es unit (tx_start t)) ANN_ERROR
                 ["Unexpected START"; "RESYNC"]]
     else [])
    ++ expected_events options unit t
  /\ state (final r) = ST_IDLE
  /\ bits (final r) = []
  /\ errors (final r) = 0.
Proof.
  destruct (decodable_parts options unit t Ht) as [Hwf Hk].
  exact (run_transaction_from options unit lr d t Hw Hm Hb Hwf Hk).
Qed.

Lemma transaction_after_abort_witness :
  let u := unit_time default_options 48000000 in
  let d := mkDecoder (Some 48000000) [] ST_ADDR_N 0x12 600 2 true 1 in
  let t := mkTransaction
             (pulses_at 9000 (1 :: byte_bits 0x5A ++ [0]))
             [(0x00, pulses_at 9500 (0 :: byte_bits 0x00 ++ [0]));
              (0x60, pulses_at 10000 (0 :: byte_bits 0x60 ++ [0]));
              (0x2C, pulses_at 10500 (0 :: byte_bits 0x2C ++ [0]))]
             (0x05, pulses_at 11000 (0 :: byte_bits 0x05 ++ [0]))
             []
             (pulses_at 11500 (1 :: byte_bits 0xFF ++ [0])) in
  decodable default_options u t = true
  /\ filter is_semantic
       (output (decode_loop default_options u (Some 1060) (edges_of (tx_pulses t)) d))
     = [mkAnn 9000 9450 ANN_ERROR ["Unexpected START"; "RESYNC"];
        mkAnn 9000 9450 ANN_START ["START"; "S"];
        mkAnn 9500 10950 ANN_ADDR ["ADDR: 0x00602C"; "0x00602C"];
        mkAnn 11000 11450 ANN_RW ["W ID:5"; "W"];
        mkAnn 11500 11950 ANN_END ["END"; "E"]].
Proof.
  intros u d t.
  assert (Ht : decodable default_options u t = true) by (vm_compute; reflexivity).
  split; [exact Ht |].
  destruct (transaction_after_abort default_options u (Some 1060) d t
              (or_intror eq_refl) eq_refl eq_refl Ht) as [Hs _].
  rewrite Hs. vm_compute. reflexivity.
Defined.

Lemma in_frame_resynced (d : Decoder) : in_frame (resynced d) = false.
Proof. reflexivity. Qed.

(** A detected frame gap is a resynchronisation before the same pass. *)
Lemma decode_loop_gap
  (options : Options) (unit : Q) (lr : option Z) (fall : Z) (rest : list Z)
  (d : Decoder) :
  gap_detected unit lr fall d = true ->
  let r := decode_loop options unit lr (fall :: rest) (resynced d) in
  decode_loop options unit lr (fall :: rest) d
  = (tt, final r,
     [mkAnn (match lr with Some l => l | None => 0 end) fall
            ANN_ERROR ["Frame gap"; "GAP"]] ++ output r).
Proof.
  intros Hg r. subst r.
  assert (Hq : frame_gap unit lr fall (resynced d) = (tt, resynced d, [])).
  { apply frame_gap_quiet. apply gap_quiet_out_of_frame. apply in_frame_resynced. }
  destruct rest as [| rise rest].
  - cbn [decode_loop]. unfold bind.
    rewrite (frame_gap_detected _ _ _ _ Hg), Hq. reflexivity.
  - rewrite !decode_loop_pulse.
    rewrite (frame_gap_detected _ _ _ _ Hg), Hq. reflexivity.
Qed.

(** X11: when the line stalls inside a frame (buffer not empty, or
    read-data or slave-end state) and the next falling edge, more than
    ten units after the last rise, is the first of a complete
    transaction, the decoder puts one frame gap error and then exactly
    the annotations of that transaction: the bits of the broken frame
    are dropped and take no part in it. *)
Theorem transaction_after_stall
  (options : Options) (unit : Q) (l : Z) (d : Decoder) (t : Transaction)
  (Hw : addr_bytes options = 2 \/ addr_bytes options = 3)
  (Hl : l <> 0)
  (Hin : bits d <> [] \/ state d = ST_READ_DATA \/ state d = ST_SLAVE_END)
  (Ht : decodable options unit t = true)
  (Hgap : (max_bit_gap unit < inject_Z (frame_ss (tx_start t) - l))%Q) :
  let r := decode_loop options unit (Some l) (edges_of (tx_pulses t)) d in
  filter is_semantic (output r)
  = mkAnn l (frame_ss (tx_start t)) ANN_ERROR ["Frame gap"; "GAP"]
    :: expected_events options unit t
  /\ state (final r) = ST_IDLE
  /\ bits (final r) = [].
Proof.
  intros r. subst r.
  destruct (decodable_parts options unit t Ht) as [Hwf Hk].
  assert (Hstart : master_frame unit 1 0x5A (tx_start t) = true).
  { unfold well_formed in Hwf. split_bools. assumption. }
  destruct (master_frame_parts unit 1 0x5A (tx_start t) Hstart) as (Hlen & _).
  destruct (run_transaction options unit (Some l) (resynced d) t Hw
              eq_refl eq_refl Hwf Hk) as (S & F & B).
  destruct (tx_start t) as [| p0 ps] eqn:Est; [discriminate Hlen |].
  assert (Hfs : frame_ss (p0 :: ps) = fst p0) by reflexivity.
  rewrite Hfs in Hgap |- *.
  assert (Hp : exists rest, edges_of (tx_pulses t) = fst p0 :: rest).
  { unfold tx_pulses. rewrite Est. eexists. reflexivity. }
  destruct Hp as [rest Hp].
  assert (Hg : gap_detected unit (Some l) (fst p0) d = true).
  { unfold gap_detected. apply in_frame_iff in Hin. rewrite Hin.
    destruct (Z.eqb_spec l 0); [contradiction |].
    destruct (Qle_bool (inject_Z (fst p0 - l)) (max_bit_gap unit)) eqn:E;
      [qbool; lra | reflexivity]. }
  rewrite Hp in S, F, B |- *.
  rewrite (decode_loop_gap options unit (Some l) (fst p0) rest d Hg).
  fields. rewrite filter_app, S.
  split; [reflexivity |]. split; assumption.
Qed.

Lemma transaction_after_stall_witness :
  let u := unit_time default_options 48000000 in
  let d := mkDecoder (Some 48000000) [(0, 100, 150); (1, 150, 200)]
             ST_DATA 0x123456 600 0 false 0 in
  let t := mkTransaction
             (pulses_at 9000 (1 :: byte_bits 0x5A ++ [0]))
             [(0x00, pulses_at 9500 (0 :: byte_bits 0x00 ++ [0]));
              (0x60, pulses_at 10000 (0 :: byte_bits 0x60 ++ [0]));
              (0x2C, pulses_at 10500 (0 :: byte_bits 0x2C ++ [0]))]
             (0x05, pulses_at 11000 (0 :: byte_bits 0x05 ++ [0]))
             []
             (pulses_at 11500 (1 :: byte_bits 0xFF ++ [0])) in
  decodable default_options u t = true
  /\ (max_bit_gap u < inject_Z (frame_ss (tx_start t) - 190))%Q
  /\ filter is_semantic
       (output (decode_loop default_options u (Some 190) (edges_of (tx_pulses t)) d))
     = [mkAnn 190 9000 ANN_ERROR ["Frame gap"; "GAP"];
        mkAnn 9000 9450 ANN_START ["START"; "S"];
        mkAnn 9500 10950 ANN_ADDR ["ADDR: 0x00602C"; "0x00602C"];
        mkAnn 11000 11450 ANN_RW ["W ID:5"; "W"];
        mkAnn 11500 11950 ANN_END ["END"; "E"]].
Proof.
  intros u d t.
  assert (Ht : decodable default_options u t = true) by (vm_compute; reflexivity).
  assert (Hgap : (max_bit_gap u < inject_Z (frame_ss (tx_start t) - 190))%Q)
    by (vm_compute; reflexivity).
  split; [exact Ht | split; [exact Hgap |]].
  assert (Hl : 190 <> 0) by discriminate.
  assert (Hin : bits d <> [] \/ state d = ST_READ_DATA \/ state d = ST_SLAVE_END)
    by (left; discriminate).
  assert (Hw : addr_bytes default_options = 2 \/ addr_bytes default_options = 3)
    by (right; reflexivity).
  pose proof (transaction_after_stall default_options u 190 d t Hw Hl Hin Ht Hgap) as H.
  cbv zeta in H. destruct H as [Hs _].
  rewrite Hs. vm_compute. reflexivity.
Defined.

(** X12: a command byte closes whatever is open: met between two bytes
    in any master state, also before the address or the RW/ID byte is
    complete, a frame with cmd 1 and value 0xFF puts END and no error,
    and a frame with cmd 1 and a value other than 0xFF and 0x5A puts
    one invalid-command error; both leave the decoder in Idle with the
    direction flag and the buffer cleared. *)
Theorem command_byte_closes
  (options : Options) (unit : Q) (v : Z) (ps : list (Z * Z)) (lr : option Z)
  (d : Decoder)
  (Hm : master_state (state d) = true)
  (Hb : bits d = [])
  (Hv : is_byte v = true)
  (Hf : master_frame unit 1 v ps = true)
  (H5A : v <> 0x5A) :
  let r := decode_loop options unit lr (edges_of ps) d in
  state (final r) = ST_IDLE
  /\ is_read (final r) = false
  /\ bits (final r) = []
  /\ (v = 0xFF -> filter is_semantic (output r) = [end_event unit ps])
  /\ (v <> 0xFF ->
      filter is_semantic (output r)
      = [mkAnn (frame_ss ps) (frame_es unit ps) ANN_ERROR
               [("Invalid CMD: " ++ hex_byte v)%string; "BAD CMD"]]).
Proof.
  intros r. subst r.
  destruct (Z.eq_dec v 0xFF) as [-> | HFF].
  - destruct (run_end_frame options unit ps lr d Hb (or_introl Hm) Hf) as [F S].
    rewrite F, S. repeat split. intros H. now elim H.
  - destruct (run_command_frame options unit v ps lr d Hb (or_introl Hm) Hf Hv H5A HFF)
      as [F S].
    rewrite F, S. repeat split. intros H. now elim HFF.
Qed.

Lemma command_byte_closes_witness :
  let u := unit_time default_options 48000000 in
  let d := mkDecoder (Some 48000000) [] ST_ADDR_N 0x12 600 2 true 0 in
  let ps := pulses_at 1100 (1 :: byte_bits 0xFF ++ [0]) in
  master_frame u 1 0xFF ps = true
  /\ state (final (decode_loop default_options u (Some 1060) (edges_of ps) d)) = ST_IDLE.
Proof.
  intros u d ps.
  assert (Hf : master_frame u 1 0xFF ps = true) by (vm_compute; reflexivity).
  split; [exact Hf |].
  destruct (command_byte_closes default_options u 0xFF ps (Some 1060) d
              eq_refl eq_refl eq_refl Hf ltac:(discriminate)) as [Hs _].
  exact Hs.
Defined.

(** ** The bit slot *)



